(** * VeloX dispatch backend

    A shallow embedding of the ride store, the driver geo index, the
    matching engine and the trip lifecycle handlers of the VeloX backend
    ([src/routes/rides.js], [src/services/socketService.js],
    [src/config/redis.js], [src/utils/pricing.js], [src/routes/drivers.js],
    [src/routes/webhooks.js]), and the properties of the dispatch
    specification checked against them.

    JavaScript numbers are modelled as rationals ([Q]), on which sums,
    products and [Math.round] are exact where the source's doubles round;
    instants ([new Date()], [Date.now()]) are integers (milliseconds) handed
    to each handler by its caller.  A handler named by its event or route runs to
    completion; the accept handler is also given in the two parts its
    [await]s separate ([accept_read], [accept_write]), and [accept_in_flight]
    runs several accepts whose status reads all resolve before any of their
    updates is issued. *)

From Stdlib Require Import ZArith QArith Qround Qminmax Qabs String List Bool Lia Lqa.
From Stdlib Require Import Sorted.
From stdpp Require Import gmap strings.

#[local] Open Scope string_scope.
#[local] Open Scope list_scope.

(** ** Data model (the Prisma models the handlers touch) *)

Inductive RideStatus :=
| REQUESTED | ACCEPTED | ARRIVING | ARRIVED | IN_PROGRESS
| COMPLETED | CANCELLED | NO_DRIVERS.

#[global] Instance RideStatus_eq_dec : EqDecision RideStatus.
Proof. solve_decision. Defined.

Record Ride := mkRide {
  userId : string;
  driverId : option string;
  status : RideStatus;
  pickupLat : Q;
  pickupLng : Q;
  dropoffLat : Q;
  dropoffLng : Q;
  distanceMiles : Q;
  durationMinutes : Z;
  serviceType : string;
  baseFare : Q;
  distanceFare : Q;
  timeFare : Q;
  surgeMult : Q;
  promoDiscount : Q;
  totalFare : Q;
  platformFee : Q;
  driverEarnings : Q;
  tip : Q;
  isScheduled : bool;
  acceptedAt : option Z;
  arrivedAt : option Z;
  startedAt : option Z;
  completedAt : option Z;
  cancelledAt : option Z;
  cancelReason : option string;
  cancelledBy : option string;
  paymentStatus : option string;
  stripePaymentIntentId : option string
}.

(** One assignment of the [data: { ... }] object of a [prisma.ride.update]
    call.  Only the fields some call site of the repository assigns have a
    constructor. *)
Inductive RideField :=
| F_driverId (v : string)
| F_status (v : RideStatus)
| F_acceptedAt (v : Z)
| F_arrivedAt (v : Z)
| F_startedAt (v : Z)
| F_completedAt (v : Z)
| F_cancelledAt (v : Z)
| F_cancelReason (v : string)
| F_cancelledBy (v : string)
| F_tip (v : Q)
| F_paymentStatus (v : string)
| F_stripePaymentIntentId (v : string).

Definition assign (r : Ride) (f : RideField) : Ride :=
  {| userId := userId r;
     driverId := match f with F_driverId v => Some v | _ => driverId r end;
     status := match f with F_status v => v | _ => status r end;
     pickupLat := pickupLat r;
     pickupLng := pickupLng r;
     dropoffLat := dropoffLat r;
     dropoffLng := dropoffLng r;
     distanceMiles := distanceMiles r;
     durationMinutes := durationMinutes r;
     serviceType := serviceType r;
     baseFare := baseFare r;
     distanceFare := distanceFare r;
     timeFare := timeFare r;
     surgeMult := surgeMult r;
     promoDiscount := promoDiscount r;
     totalFare := totalFare r;
     platformFee := platformFee r;
     driverEarnings := driverEarnings r;
     tip := match f with F_tip v => v | _ => tip r end;
     isScheduled := isScheduled r;
     acceptedAt := match f with F_acceptedAt v => Some v | _ => acceptedAt r end;
     arrivedAt := match f with F_arrivedAt v => Some v | _ => arrivedAt r end;
     startedAt := match f with F_startedAt v => Some v | _ => startedAt r end;
     completedAt := match f with F_completedAt v => Some v | _ => completedAt r end;
     cancelledAt := match f with F_cancelledAt v => Some v | _ => cancelledAt r end;
     cancelReason := match f with F_cancelReason v => Some v | _ => cancelReason r end;
     cancelledBy := match f with F_cancelledBy v => Some v | _ => cancelledBy r end;
     paymentStatus := match f with F_paymentStatus v => Some v | _ => paymentStatus r end;
     stripePaymentIntentId :=
       match f with F_stripePaymentIntentId v => Some v | _ => stripePaymentIntentId r end |}.

(** [data] applied left to right, as the keys of the object literal. *)
Definition apply_data (data : list RideField) (r : Ride) : Ride :=
  fold_left assign data r.

Record Driver := mkDriver {
  firstName : string;
  lastName : string;
  phone : string;
  rating : Q;
  approval : string;            (* Driver.status: 'APPROVED', 'SUSPENDED', ... *)
  isOnline : bool;
  serviceTypes : list string;
  currentLat : option Q;
  currentLng : option Q;
  lastLocationUpdate : option Z;
  totalRides : Z;
  totalEarnings : Q
}.

Record Earning := mkEarning {
  e_driverId : string;
  e_rideId : string;
  grossAmount : Q;
  e_platformFee : Q;
  netAmount : Q;
  e_tip : Q;
  e_status : string
}.

Record PromoCode := mkPromoCode {
  promoId : string;
  promoType : string;           (* 'FIXED' or 'PERCENTAGE' *)
  value : Q;
  maxDiscount : option Q;
  isActive : bool;
  validUntil : option Z;
  usageLimit : option Z;
  usageCount : Z;
  perUserLimit : Z;
  minRideFare : option Q
}.

(** ** Redis: the location keys, the geo set and the live ride state *)

Record Location := mkLocation { loc_lat : Q; loc_lng : Q; updatedAt : Z }.

Record RideState := mkRideState {
  rs_userId : string;
  rs_status : RideStatus;
  rs_serviceType : string;
  rs_totalFare : Q
}.

(** A key written by [SETEX key ttl v] at instant [now] is kept with the
    instant it expires at; it reads as absent from then on. *)
Record Redis := mkRedis {
  driver_location : gmap string (Location * Z);   (* driver:location:{id} *)
  drivers_online : gmap string (Q * Q);           (* geo set: member -> (lng, lat) *)
  ride_state : gmap string (RideState * Z)        (* ride:state:{id} *)
}.

(** ** The realtime channel: what a handler emits, and to whom *)

Inductive Target :=
| to_user (id : string)          (* io.to(`user:${id}`) *)
| to_driver (id : string)        (* io.to(`driver:${id}`) *)
| to_ride (id : string)          (* io.to(`ride:${id}`) *)
| to_socket (id : string).       (* socket.emit on the connection of [id] *)

Inductive Event :=
| ride_accept_failed (error : string)
| ride_accepted (rideId driver : string)
| ride_accept_confirmed (rideId : string) (fare : Q)
| ride_driver_arrived (rideId : string)
| ride_trip_started (rideId : string)
| ride_completed (rideId : string) (fare : Q)
| ride_complete_confirmed (rideId : string) (earnings : Q)
| ride_no_drivers (rideId : string)
| ride_request (rideId : string) (fare pickupDistanceMiles : Q)
| ride_cancelled (rideId by_ : string) (cancellationFee : Q).

(** A pending [setTimeout] of [startDriverMatching]: the ride it watches and
    the rider captured by the closure. *)
Record Timer := mkTimer { t_rideId : string; t_userId : string; fireAt : Z }.

(** ** The world a handler runs in *)

Record World := mkWorld {
  rides : gmap string Ride;
  drivers : gmap string Driver;
  earnings : list Earning;
  promoCodes : gmap string PromoCode;        (* by code *)
  promoUsages : list (string * string);      (* (promoCodeId, userId) *)
  redis : Redis;
  outbox : list (Target * Event);
  timers : list Timer
}.

Definition set_rides (f : gmap string Ride -> gmap string Ride) (w : World) : World :=
  mkWorld (f (rides w)) (drivers w) (earnings w) (promoCodes w) (promoUsages w)
          (redis w) (outbox w) (timers w).
Definition set_drivers (f : gmap string Driver -> gmap string Driver) (w : World) : World :=
  mkWorld (rides w) (f (drivers w)) (earnings w) (promoCodes w) (promoUsages w)
          (redis w) (outbox w) (timers w).
Definition set_earnings (f : list Earning -> list Earning) (w : World) : World :=
  mkWorld (rides w) (drivers w) (f (earnings w)) (promoCodes w) (promoUsages w)
          (redis w) (outbox w) (timers w).
Definition set_redis (f : Redis -> Redis) (w : World) : World :=
  mkWorld (rides w) (drivers w) (earnings w) (promoCodes w) (promoUsages w)
          (f (redis w)) (outbox w) (timers w).
Definition set_outbox (f : list (Target * Event) -> list (Target * Event)) (w : World) : World :=
  mkWorld (rides w) (drivers w) (earnings w) (promoCodes w) (promoUsages w)
          (redis w) (f (outbox w)) (timers w).
Definition set_timers (f : list Timer -> list Timer) (w : World) : World :=
  mkWorld (rides w) (drivers w) (earnings w) (promoCodes w) (promoUsages w)
          (redis w) (outbox w) (f (timers w)).

(** ** Handlers as state transformers that may throw *)

Inductive Exn :=
| P2025            (* Prisma: record to update not found *)
| P2002            (* Prisma: unique constraint violated *)
| TypeError        (* property read on null *)
| ReplyError.      (* Redis refused the command *)

Inductive Outcome (A : Type) :=
| Done (a : A)
| Threw (e : Exn).
Arguments Done {A} a.
Arguments Threw {A} e.

Definition M (A : Type) : Type := World -> Outcome A * World.

Definition ret {A} (a : A) : M A := fun w => (Done a, w).
Definition throw {A} (e : Exn) : M A := fun w => (Threw e, w).
Definition bind {A B} (c : M A) (k : A -> M B) : M B :=
  fun w => match c w with
           | (Done a, w') => k a w'
           | (Threw e, w') => (Threw e, w')
           end.
(** [try { c } catch (err) { h }]: what [c] wrote before throwing stays. *)
Definition try_catch {A} (c : M A) (h : Exn -> M A) : M A :=
  fun w => match c w with
           | (Done a, w') => (Done a, w')
           | (Threw e, w') => h e w'
           end.
Definition gets {A} (f : World -> A) : M A := fun w => (Done (f w), w).
Definition modify (f : World -> World) : M unit := fun w => (Done tt, f w).

#[global] Instance M_ret : MRet M := @ret.
#[global] Instance M_bind : MBind M := fun A B k c => bind c k.

Definition emit (t : Target) (e : Event) : M unit :=
  modify (set_outbox (fun o => o ++ [(t, e)])).

(** *** Prisma *)

Definition ride_findUnique (id : string) : M (option Ride) :=
  gets (fun w => rides w !! id).

(** [prisma.ride.update({ where: { id }, data })]: throws P2025 when no ride
    has this id, else writes [data] and returns the updated ride.  The
    [where] clause names the id only, never the status. *)
Definition ride_update (id : string) (data : list RideField) : M Ride :=
  r ← ride_findUnique id;
  match r with
  | None => throw P2025
  | Some r =>
      let r' := apply_data data r in
      modify (set_rides (insert id r')) ;; ret r'
  end.

Definition driver_findUnique (id : string) : M (option Driver) :=
  gets (fun w => drivers w !! id).

Definition driver_update (id : string) (f : Driver -> Driver) : M Driver :=
  d ← driver_findUnique id;
  match d with
  | None => throw P2025
  | Some d => modify (set_drivers (insert id (f d))) ;; ret (f d)
  end.

(** ** What the repository leaves to its collaborators

    [schema.prisma] and the Redis server are not part of the sources.  The
    handlers are therefore parameterised by the three facts about them that
    decide behaviour: whether [Earning.rideId] carries a unique constraint,
    which coordinate pairs [GEOADD] accepts, and the distance (in miles)
    [GEORADIUS] computes between two (longitude, latitude) points. *)

Section Handlers.

Variable earning_rideId_unique : bool.
Variable geo_valid : Q -> Q -> bool.
Variable geo_dist : Q * Q -> Q * Q -> Q.

(** *** [src/config/redis.js] *)

Definition setex_location (driverId : string) (seconds : Z) (v : Location) (now : Z) : M unit :=
  modify (set_redis (fun r =>
    mkRedis (<[driverId := (v, (now + seconds * 1000)%Z)]> (driver_location r))
            (drivers_online r) (ride_state r))).

Definition geoadd (lng lat : Q) (member : string) : M unit :=
  if geo_valid lng lat
  then modify (set_redis (fun r =>
         mkRedis (driver_location r) (<[member := (lng, lat)]> (drivers_online r))
                 (ride_state r)))
  else throw ReplyError.

Definition updateDriverLocation (driverId : string) (lat lng : Q) (now : Z) : M unit :=
  setex_location driverId 300 (mkLocation lat lng now) now ;;
  geoadd lng lat driverId.

Definition live {A} (now : Z) (e : option (A * Z)) : option A :=
  match e with
  | Some (v, expires) => if (now <? expires)%Z then Some v else None
  | None => None
  end.

Definition getDriverLocation (driverId : string) (now : Z) : M (option Location) :=
  gets (fun w => live now (driver_location (redis w) !! driverId)).

Definition within (lng lat radius : Q) (m : string * (Q * Q)) : option (string * Q) :=
  let d := geo_dist (lng, lat) (snd m) in
  if Qle_bool d radius then Some (fst m, d) else None.

Fixpoint insert_asc (x : string * Q) (l : list (string * Q)) : list (string * Q) :=
  match l with
  | [] => [x]
  | y :: l' => if Qle_bool (snd x) (snd y) then x :: l else y :: insert_asc x l'
  end.

Definition sort_asc (l : list (string * Q)) : list (string * Q) :=
  fold_right insert_asc [] l.

(** [GEORADIUS key lng lat radius mi WITHDIST ASC COUNT count] *)
Definition georadius (lng lat radius : Q) (count : nat) : M (list (string * Q)) :=
  gets (fun w =>
    take count (sort_asc (omap (within lng lat radius)
                               (map_to_list (drivers_online (redis w)))))).

(** [radiusMiles] defaults to 10 and [limit] to 20; every caller passes the
    radius and leaves the limit out. *)
Definition findNearbyDrivers (lat lng : Q) (radiusMiles : Q) (limit : nat)
  : M (list (string * Q)) :=
  georadius lng lat radiusMiles limit.

Definition removeDriverFromPool (driverId : string) : M unit :=
  modify (set_redis (fun r =>
    mkRedis (delete driverId (driver_location r)) (delete driverId (drivers_online r))
            (ride_state r))).

Definition setRideState (rideId : string) (state : RideState) (now : Z) : M unit :=
  modify (set_redis (fun r =>
    mkRedis (driver_location r) (drivers_online r)
            (<[rideId := (state, (now + 3600 * 1000)%Z)]> (ride_state r)))).

Definition clearRideState (rideId : string) : M unit :=
  modify (set_redis (fun r =>
    mkRedis (driver_location r) (drivers_online r) (delete rideId (ride_state r)))).

(** *** [src/services/socketService.js]

    [id] and [type] are [socket.user], taken from the verified token. *)

Definition is_driver (type : string) : bool := String.eqb type "driver".
Definition is_user (type : string) : bool := String.eqb type "user".

(** ['driver:accept_ride'] (lines 81-124), up to its status test ... *)
Definition accept_read (id rideId : string) : M (option Ride) :=
  ride ← ride_findUnique rideId;
  match ride with
  | Some ride =>
      if decide (status ride = REQUESTED) then ret (Some ride)
      else emit (to_socket id) (ride_accept_failed "Ride no longer available") ;;
           ret None
  | None =>
      emit (to_socket id) (ride_accept_failed "Ride no longer available") ;;
      ret None
  end.

(** ... and from there on, with the ride it read. *)
Definition accept_write (id rideId : string) (now : Z) (ride : Ride) : M unit :=
  driver ← driver_findUnique id;
  ride_update rideId [F_driverId id; F_status ACCEPTED; F_acceptedAt now] ;;
  match driver with
  | None => throw TypeError
  | Some driver =>
      emit (to_user (userId ride)) (ride_accepted rideId id) ;;
      emit (to_socket id) (ride_accept_confirmed rideId (driverEarnings ride))
  end.

Definition accept_catch (id : string) (_ : Exn) : M unit :=
  emit (to_socket id) (ride_accept_failed "Failed to accept ride").

(** The whole handler: both parts inside its [try], one after the other. *)
Definition driver_accept_ride (id type rideId : string) (now : Z) : M unit :=
  if negb (is_driver type) then ret tt else
  try_catch
    (ride ← accept_read id rideId;
     match ride with
     | Some ride => accept_write id rideId now ride
     | None => ret tt
     end)
    (accept_catch id).

(** ['driver:arrived'] (lines 127-137) and ['driver:start_trip'] (lines
    140-150): an update by id, outside any [try]. *)
Definition driver_arrived (id type rideId : string) (now : Z) : M unit :=
  if negb (is_driver type) then ret tt else
  ride ← ride_update rideId [F_status ARRIVED; F_arrivedAt now];
  emit (to_user (userId ride)) (ride_driver_arrived rideId).

Definition driver_start_trip (id type rideId : string) (now : Z) : M unit :=
  if negb (is_driver type) then ret tt else
  ride ← ride_update rideId [F_status IN_PROGRESS; F_startedAt now];
  emit (to_user (userId ride)) (ride_trip_started rideId).

(** ['driver:complete_trip'] (lines 153-190).  [prisma.earning.create]
    refuses a second row for a ride only where the schema makes
    [Earning.rideId] unique. *)
Definition has_ride (rideId : string) (e : Earning) : bool :=
  String.eqb (e_rideId e) rideId.

Definition earning_create (e : Earning) : M unit :=
  es ← gets earnings;
  if earning_rideId_unique && existsb (has_ride (e_rideId e)) es
  then throw P2002
  else modify (set_earnings (fun es => es ++ [e])).

Definition count_ride (d : Driver) (amount : Q) : Driver :=
  mkDriver (firstName d) (lastName d) (phone d) (rating d) (approval d) (isOnline d)
           (serviceTypes d) (currentLat d) (currentLng d) (lastLocationUpdate d)
           (totalRides d + 1)%Z (totalEarnings d + amount)%Q.

Definition driver_complete_trip (id type rideId : string) (now : Z) : M unit :=
  if negb (is_driver type) then ret tt else
  ride ← ride_update rideId [F_status COMPLETED; F_completedAt now];
  assigned ← gets (fun w => driverId ride ≫= fun d => drivers w !! d);  (* include: driver *)
  earning_create (mkEarning id rideId (totalFare ride) (platformFee ride)
                            (driverEarnings ride) (tip ride) "PENDING") ;;
  driver_update id (fun d => count_ride d (driverEarnings ride)) ;;
  clearRideState rideId ;;
  match assigned with
  | None => throw TypeError          (* ride.driver is null *)
  | Some _ =>
      emit (to_user (userId ride)) (ride_completed rideId (totalFare ride)) ;;
      emit (to_socket id) (ride_complete_confirmed rideId (driverEarnings ride))
  end.

(** *** [src/utils/pricing.js] *)

Record Pricing := mkPricing {
  p_baseFare : Q; perMile : Q; perMinute : Q; minFare : Q; bookingFee : Q
}.

Definition VELOX : Pricing := mkPricing 3 (175 # 100) (25 # 100) 7 (250 # 100).
Definition VELOX_XL : Pricing := mkPricing 5 (250 # 100) (35 # 100) 10 (250 # 100).
Definition VELOX_BLACK : Pricing := mkPricing 8 (350 # 100) (50 # 100) 15 3.
Definition VELOX_GREEN : Pricing := mkPricing (250 # 100) (150 # 100) (20 # 100) 6 2.

(** The names every JavaScript object inherits from [Object.prototype].
    For them [PRICING[serviceType]] finds the inherited member, which is
    truthy and has none of the pricing fields: no fallback is taken and
    every amount [calculateFare] computes is NaN.  [PRICING] and
    [calculateFare] below are the lookup and the fare for every other
    string; the request route admits the four priced names only. *)
Definition inherited_name (serviceType : string) : bool :=
  bool_decide (serviceType ∈
    ["constructor"; "__proto__"; "hasOwnProperty"; "isPrototypeOf";
     "propertyIsEnumerable"; "toLocaleString"; "toString"; "valueOf";
     "__defineGetter__"; "__defineSetter__"; "__lookupGetter__"; "__lookupSetter__"]).

(** [PRICING[serviceType]]: [None] is [undefined]. *)
Definition PRICING (serviceType : string) : option Pricing :=
  if String.eqb serviceType "VELOX" then Some VELOX
  else if String.eqb serviceType "VELOX_XL" then Some VELOX_XL
  else if String.eqb serviceType "VELOX_BLACK" then Some VELOX_BLACK
  else if String.eqb serviceType "VELOX_GREEN" then Some VELOX_GREEN
  else None.

(** [Math.round(x * 100) / 100]; [Math.round] rounds halves up. *)
Definition round2 (x : Q) : Q :=
  (inject_Z (Qfloor (x * 100 + (1 # 2))) / 100)%Q.

Record FareDetails := mkFareDetails {
  fd_baseFare : Q; fd_distanceFare : Q; fd_timeFare : Q; fd_bookingFee : Q;
  fd_surgeMultiplier : Q; fd_totalFare : Q
}.

Definition calculateFare (distanceMiles : Q) (durationMinutes : Z) (serviceType : string)
    (surgeMultiplier : Q) : FareDetails :=
  let pricing := default VELOX (PRICING serviceType) in
  let baseFare := p_baseFare pricing in
  let distanceFare := (distanceMiles * perMile pricing)%Q in
  let timeFare := (inject_Z durationMinutes * perMinute pricing)%Q in
  let subtotal := ((baseFare + distanceFare + timeFare) * surgeMultiplier)%Q in
  let bookingFee := bookingFee pricing in
  let total := (subtotal + bookingFee)%Q in
  let total := if Qlt_le_dec total (minFare pricing) then minFare pricing else total in
  mkFareDetails (round2 baseFare) (round2 distanceFare) (round2 timeFare)
                (round2 bookingFee) surgeMultiplier (round2 total).

(** *** [src/routes/rides.js] *)

Inductive Body :=
| error_ (error : string)
| message_of (err : Exn)                    (* { error: err.message } *)
| errors_                                   (* { errors: errors.array() } *)
| created_ (rideId : string) (ride : Ride)
| ride_ (ride : Ride) (driverLocation : option Location)
| cancelled_ (cancellationFee : Q)
| success_.

Record Response := mkResponse { code : Z; body : Body }.

(** [errorHandler] of [src/middleware/errorHandler.js], reached through
    [asyncHandler] when the handler throws before it answered.  It replaces
    the message of the two Prisma errors; any other error is answered 500
    with the message the error carries (a [TypeError] and a Redis reply
    error always carry one, so the fallback text 'Internal Server Error' is
    not sent for them). *)
Definition errorHandler (e : Exn) : Response :=
  match e with
  | P2002 => mkResponse 409 (error_ "A record with this value already exists")
  | P2025 => mkResponse 404 (error_ "Record not found")
  | e => mkResponse 500 (message_of e)
  end.

Definition asyncHandler (h : M Response) : M Response :=
  try_catch h (fun e => ret (errorHandler e)).

Definition requireUserType (wanted type : string) (next : M Response) : M Response :=
  if String.eqb type wanted then next
  else ret (mkResponse 403 (error_ ("Access denied. " ++ wanted ++ " account required."))).

Definition active_statuses : list RideStatus :=
  [REQUESTED; ACCEPTED; ARRIVING; ARRIVED; IN_PROGRESS].

Definition is_active (s : RideStatus) : bool :=
  bool_decide (s ∈ active_statuses).

(** [prisma.ride.findFirst({ where: { userId, status: { in: [...] } } })]
    (lines 119-124) *)
Definition ride_findFirst_active (user : string) : M (option (string * Ride)) :=
  gets (fun w =>
    head (List.filter (fun kr => String.eqb (userId (snd kr)) user && is_active (status (snd kr)))
                 (map_to_list (rides w)))).

Definition getAvailableDriversForService (nearbyDrivers : list (string * Q))
    (service : string) : M (list (string * Q)) :=
  match nearbyDrivers with
  | [] => ret []
  | _ =>
      ds ← gets drivers;
      let available (id : string) : bool :=
        match ds !! id with
        | Some d => String.eqb (approval d) "APPROVED" && isOnline d
                    && bool_decide (service ∈ serviceTypes d)
        | None => false
        end in
      ret (List.filter (fun d => available (fst d)) nearbyDrivers)
  end.

Definition upper (c : Ascii.ascii) : Ascii.ascii :=
  let n := Ascii.nat_of_ascii c in
  if (97 <=? n)%nat && (n <=? 122)%nat then Ascii.ascii_of_nat (n - 32) else c.

Fixpoint toUpperCase (s : string) : string :=
  match s with
  | EmptyString => EmptyString
  | String c s' => String (upper c) (toUpperCase s')
  end.

Definition count_usages (promo user : string) (us : list (string * string)) : Z :=
  Z.of_nat (length (List.filter (fun u => String.eqb (fst u) promo && String.eqb (snd u) user) us)).

(** [{ valid: true, discount }] is [Some discount]; every [{ valid: false }]
    is [None].  The decimal columns ([maxDiscount], [minRideFare]) are
    objects, truthy whenever present; the integer [usageLimit] is falsy at 0. *)
Definition validatePromoCode (code user : string) (fareAmount : Q) (now : Z) : M (option Q) :=
  promo ← gets (fun w => promoCodes w !! toUpperCase code);
  match promo with
  | None => ret None
  | Some promo =>
      if negb (isActive promo) then ret None
      else if match validUntil promo with Some t => (t <? now)%Z | None => false end
      then ret None
      else if match usageLimit promo with
              | Some l => negb (l =? 0)%Z && (l <=? usageCount promo)%Z
              | None => false
              end
      then ret None
      else
        userUsages ← gets (fun w => count_usages (promoId promo) user (promoUsages w));
        if (perUserLimit promo <=? userUsages)%Z then ret None
        else if match minRideFare promo with
                | Some m => negb (Qle_bool m fareAmount)
                | None => false
                end
        then ret None
        else
          let discount :=
            if String.eqb (promoType promo) "FIXED"
            then Qmin (value promo) fareAmount
            else
              let discount := (fareAmount * (value promo / 100))%Q in
              match maxDiscount promo with
              | Some m => Qmin discount m
              | None => discount
              end in
          ret (Some discount)
  end.

(** The [setTimeout] callback of [startDriverMatching] (lines 767-778). *)
Definition expiry_callback (t : Timer) : M unit :=
  currentRide ← ride_findUnique (t_rideId t);
  match currentRide with
  | Some currentRide =>
      if decide (status currentRide = REQUESTED) then
        ride_update (t_rideId t) [F_status NO_DRIVERS] ;;
        emit (to_user (t_userId t)) (ride_no_drivers (t_rideId t))
      else ret tt
  | None => ret tt
  end.

(** [startDriverMatching] (lines 714-779); the timer it sets is recorded,
    not run. *)
Definition startDriverMatching (rideId : string) (now : Z) : M unit :=
  ride ← ride_findUnique rideId;
  match ride with
  | None => ret tt
  | Some ride =>
      nearbyDrivers ← findNearbyDrivers (pickupLat ride) (pickupLng ride) 10 20;
      availableDrivers ← getAvailableDriversForService nearbyDrivers (serviceType ride);
      match availableDrivers with
      | [] =>
          ride_update rideId [F_status NO_DRIVERS] ;;
          emit (to_user (userId ride)) (ride_no_drivers rideId)
      | _ =>
          let driversToNotify := take 5 availableDrivers in
          mapM (fun d => emit (to_driver (fst d))
                              (ride_request rideId (driverEarnings ride) (snd d)))
               driversToNotify ;;
          modify (set_timers (fun ts => ts ++ [mkTimer rideId (userId ride) (now + 30000)%Z]))
      end
  end.

(** The body of [POST /api/rides/request] (lines 95-233).  [stops] never
    enters the fare of this route and is left out; [distance] is the value
    [calculateDistance] (the haversine formula, in floating point) returns
    for the pickup and dropoff points. *)
Record RideRequest := mkRideRequest {
  q_pickupAddress : string;
  q_pickupLat : Q;
  q_pickupLng : Q;
  q_dropoffAddress : string;
  q_dropoffLat : Q;
  q_dropoffLng : Q;
  q_serviceType : string;
  q_scheduledFor : option Z;
  q_promoCode : option string
}.

Definition notEmpty (s : string) : bool := negb (String.eqb s "").

(** [scheduledFor] is tested for truth ([!!scheduledFor], [!scheduledFor]):
    the request counts as scheduled unless the field is absent or is the
    number 0. *)
Definition scheduled (q : RideRequest) : bool :=
  match q_scheduledFor q with
  | Some t => negb (t =? 0)%Z
  | None => false
  end.

Definition request_valid (q : RideRequest) : bool :=
  notEmpty (q_pickupAddress q) && notEmpty (q_dropoffAddress q)
  && bool_decide (q_serviceType q ∈ ["VELOX"; "VELOX_XL"; "VELOX_BLACK"; "VELOX_GREEN"]).

(** [prisma.ride.create]: the database draws the id; [newId] is that draw. *)
Definition ride_create (newId : string) (r : Ride) : M Ride :=
  old ← ride_findUnique newId;
  match old with
  | Some _ => throw P2002
  | None => modify (set_rides (insert newId r)) ;; ret r
  end.

Definition post_request (id type : string) (q : RideRequest) (distance : Q)
    (newId : string) (now : Z) : M Response :=
  requireUserType "user" type (asyncHandler (
    if negb (request_valid q) then ret (mkResponse 400 errors_) else
    activeRide ← ride_findFirst_active id;
    match activeRide with
    | Some _ => ret (mkResponse 400 (error_ "You already have an active ride"))
    | None =>
        let duration := Qceiling (distance * (25 # 10) + 5) in
        let surgeMultiplier := 1%Q in
        let fareDetails := calculateFare distance duration (q_serviceType q) surgeMultiplier in
        promoDiscount ←
          match q_promoCode q with
          | Some promoCode =>
              if String.eqb promoCode "" then ret 0%Q else
              promo ← validatePromoCode promoCode id (fd_totalFare fareDetails) now;
              ret (default 0%Q promo)
          | None => ret 0%Q
          end;
        let platformFeePercent := 20%Q in
        let totalFare := (fd_totalFare fareDetails - promoDiscount)%Q in
        let platformFee := (totalFare * (platformFeePercent / 100))%Q in
        let driverEarnings := (totalFare - platformFee)%Q in
        ride ← ride_create newId
          {| userId := id; driverId := None; status := REQUESTED;
             pickupLat := q_pickupLat q; pickupLng := q_pickupLng q;
             dropoffLat := q_dropoffLat q; dropoffLng := q_dropoffLng q;
             distanceMiles := distance; durationMinutes := duration;
             serviceType := q_serviceType q;
             baseFare := fd_baseFare fareDetails;
             distanceFare := fd_distanceFare fareDetails;
             timeFare := fd_timeFare fareDetails;
             surgeMult := surgeMultiplier;
             promoDiscount := promoDiscount;
             totalFare := totalFare;
             platformFee := platformFee;
             driverEarnings := driverEarnings;
             tip := 0;
             isScheduled := scheduled q;
             acceptedAt := None; arrivedAt := None; startedAt := None;
             completedAt := None; cancelledAt := None;
             cancelReason := None; cancelledBy := None;
             paymentStatus := None; stripePaymentIntentId := None |};
        setRideState newId (mkRideState id (status ride) (q_serviceType q) totalFare) now ;;
        (if scheduled q then ret tt
         else
           (* not awaited: a rejection inside it never reaches the response *)
           try_catch (startDriverMatching newId now) (fun _ => ret tt)) ;;
        ret (mkResponse 201 (created_ newId ride))
    end)).

(** [GET /api/rides/:id] (lines 243-356) *)
Definition get_ride (id type rideId : string) (now : Z) : M Response :=
  asyncHandler (
    ride ← ride_findUnique rideId;
    match ride with
    | None => ret (mkResponse 404 (error_ "Ride not found"))
    | Some ride =>
        if is_user type && negb (bool_decide (userId ride = id))
        then ret (mkResponse 403 (error_ "Access denied"))
        else if is_driver type && negb (bool_decide (driverId ride = Some id))
        then ret (mkResponse 403 (error_ "Access denied"))
        else
          driverLocation ←
            match driverId ride with
            | Some d =>
                if bool_decide (status ride ∈ [ACCEPTED; ARRIVING; ARRIVED; IN_PROGRESS])
                then getDriverLocation d now else ret None
            | None => ret None
            end;
          ret (mkResponse 200 (ride_ ride driverLocation))
    end).

(** The [data] of the update of [POST /api/rides/:id/cancel].  [reason] is
    optional in the body; Prisma leaves alone a column whose value in
    [data] is [undefined], so a cancellation without a reason keeps the
    [cancelReason] the ride had. *)
Definition cancel_data (type : string) (reason : option string) (now : Z) : list RideField :=
  [F_status CANCELLED; F_cancelledAt now]
  ++ (match reason with Some reason => [F_cancelReason reason] | None => [] end)
  ++ [F_cancelledBy (if is_user type then "RIDER" else "DRIVER")].

(** [POST /api/rides/:id/cancel] (lines 366-433) *)
Definition post_cancel (id type rideId : string) (reason : option string) (now : Z)
  : M Response :=
  asyncHandler (
    ride ← ride_findUnique rideId;
    match ride with
    | None => ret (mkResponse 404 (error_ "Ride not found"))
    | Some ride =>
        if is_user type && negb (bool_decide (userId ride = id))
        then ret (mkResponse 403 (error_ "Access denied"))
        else if is_driver type && negb (bool_decide (driverId ride = Some id))
        then ret (mkResponse 403 (error_ "Access denied"))
        else if bool_decide (status ride ∈ [COMPLETED; CANCELLED])
        then ret (mkResponse 400 (error_ "Ride cannot be cancelled"))
        else
          let cancellationFee :=
            if bool_decide (is_Some (driverId ride)) && is_user type then 5%Q else 0%Q in
          ride_update rideId (cancel_data type reason now) ;;
          clearRideState rideId ;;
          emit (to_ride rideId) (ride_cancelled rideId type cancellationFee) ;;
          ret (mkResponse 200 (cancelled_ cancellationFee))
    end).

Definition tip_earning (rideId : string) (amount : Q) (e : Earning) : Earning :=
  if has_ride rideId e
  then mkEarning (e_driverId e) (e_rideId e) (grossAmount e) (e_platformFee e)
                 (netAmount e) amount (e_status e)
  else e.

(** [POST /api/rides/:id/tip] (lines 443-483).  The route declares
    [isFloat({ min: 0, max: 100 })] on [amount] and never reads the
    validation result, so every [amount] reaches the update. *)
Definition post_tip (id type rideId : string) (amount : Q) : M Response :=
  requireUserType "user" type (asyncHandler (
    ride ← ride_findUnique rideId;
    match ride with
    | None => ret (mkResponse 404 (error_ "Ride not found"))
    | Some ride =>
        if negb (bool_decide (userId ride = id))
        then ret (mkResponse 404 (error_ "Ride not found"))
        else if negb (bool_decide (status ride = COMPLETED))
        then ret (mkResponse 400 (error_ "Can only tip completed rides"))
        else
          ride_update rideId [F_tip amount] ;;
          match driverId ride with
          | Some _ => modify (set_earnings (map (tip_earning rideId amount)))
          | None => ret tt
          end ;;
          ret (mkResponse 200 success_)
    end)).

(** *** [src/routes/webhooks.js] *)

Definition handlePaymentSuccess (rideId paymentIntent : string) : M unit :=
  ride_update rideId [F_paymentStatus "CAPTURED"; F_stripePaymentIntentId paymentIntent] ;;
  ret tt.

Definition handlePaymentFailed (rideId : string) : M unit :=
  ride_update rideId [F_paymentStatus "FAILED"] ;; ret tt.

(** *** [src/routes/drivers.js]: [POST /api/drivers/location]

    The route declares [isFloat] on [lat] and [lng] and never reads the
    validation result; it compares them with no bound. *)

Definition move_driver (lat lng : Q) (now : Z) (d : Driver) : Driver :=
  mkDriver (firstName d) (lastName d) (phone d) (rating d) (approval d) (isOnline d)
           (serviceTypes d) (Some lat) (Some lng) (Some now)
           (totalRides d) (totalEarnings d).

Definition post_location (id type : string) (lat lng : Q) (now : Z) : M Response :=
  requireUserType "driver" type (asyncHandler (
    driver_update id (move_driver lat lng now) ;;
    updateDriverLocation id lat lng now ;;
    ret (mkResponse 200 success_))).

(** ** Runs of several handlers *)

(** Accept events [(driver, instant)] of several drivers for one ride, each
    arriving while the status reads of the earlier ones are still pending.
    The handler suspends at [await prisma.ride.findUnique]: every read is
    issued, and resolves, before any handler reaches its update.  Each
    handler then goes on, in arrival order, with the ride it read. *)
Fixpoint accept_reads (attempts : list (string * Z)) (rideId : string)
  : M (list (string * Z * option Ride)) :=
  match attempts with
  | [] => ret []
  | a :: rest =>
      ride ← try_catch (accept_read (fst a) rideId)
                       (fun e => accept_catch (fst a) e ;; ret None);
      reads ← accept_reads rest rideId;
      ret ((fst a, snd a, ride) :: reads)
  end.

Fixpoint accept_writes (reads : list (string * Z * option Ride)) (rideId : string) : M unit :=
  match reads with
  | [] => ret tt
  | (d, t, Some ride) :: rest =>
      try_catch (accept_write d rideId t ride) (accept_catch d) ;;
      accept_writes rest rideId
  | (_, _, None) :: rest => accept_writes rest rideId
  end.

Definition accept_in_flight (attempts : list (string * Z)) (rideId : string) : M unit :=
  reads ← accept_reads attempts rideId;
  accept_writes reads rideId.

(** Every entry point that creates or updates a ride (each call site of
    [prisma.ride.create] and [prisma.ride.update]), the read of a ride and
    the position upsert, with their arguments. *)
Inductive Op :=
| op_request (id type : string) (q : RideRequest) (distance : Q) (newId : string) (now : Z)
| op_get (id type rideId : string) (now : Z)
| op_cancel (id type rideId : string) (reason : option string) (now : Z)
| op_tip (id type rideId : string) (amount : Q)
| op_accept (id type rideId : string) (now : Z)
| op_arrived (id type rideId : string) (now : Z)
| op_start_trip (id type rideId : string) (now : Z)
| op_complete_trip (id type rideId : string) (now : Z)
| op_expiry (t : Timer)
| op_payment_success (rideId paymentIntent : string)
| op_payment_failed (rideId : string)
| op_location (id type : string) (lat lng : Q) (now : Z).

Definition run_op (op : Op) : M unit :=
  match op with
  | op_request id type q distance newId now =>
      post_request id type q distance newId now ;; ret tt
  | op_get id type rideId now => get_ride id type rideId now ;; ret tt
  | op_cancel id type rideId reason now => post_cancel id type rideId reason now ;; ret tt
  | op_tip id type rideId amount => post_tip id type rideId amount ;; ret tt
  | op_accept id type rideId now => driver_accept_ride id type rideId now
  | op_arrived id type rideId now => driver_arrived id type rideId now
  | op_start_trip id type rideId now => driver_start_trip id type rideId now
  | op_complete_trip id type rideId now => driver_complete_trip id type rideId now
  | op_expiry t => expiry_callback t
  | op_payment_success rideId paymentIntent => handlePaymentSuccess rideId paymentIntent
  | op_payment_failed rideId => handlePaymentFailed rideId
  | op_location id type lat lng now => post_location id type lat lng now ;; ret tt
  end.

(** A handler that throws ends there (an unhandled rejection); the next
    one starts from the world it left. *)
Fixpoint run_ops (ops : list Op) (w : World) : World :=
  match ops with
  | [] => w
  | op :: ops => run_ops ops (snd (run_op op w))
  end.

End Handlers.

(** ** Vocabulary of the specification *)


(** The requester is the ride's rider, or the driver assigned to it. *)
Definition is_rider_of (id type : string) (r : Ride) : Prop :=
  type = "user" /\ userId r = id.
Definition is_driver_of (id type : string) (r : Ride) : Prop :=
  type = "driver" /\ driverId r = Some id.

(** At most one ride of a rider is in a non-terminal status. *)
Definition one_active_ride (m : gmap string Ride) : Prop :=
  forall k1 k2 r1 r2,
    m !! k1 = Some r1 -> m !! k2 = Some r2 ->
    userId r1 = userId r2 ->
    is_active (status r1) = true -> is_active (status r2) = true ->
    k1 = k2.

Definition fare_fields (r : Ride) : Q * Q * Q * Q * Q * Q * Q * Q :=
  (baseFare r, distanceFare r, timeFare r, surgeMult r,
   promoDiscount r, totalFare r, platformFee r, driverEarnings r).

(** [m'] still holds every ride of [m], with the fare it had. *)
Definition same_fares (m m' : gmap string Ride) : Prop :=
  forall k r, m !! k = Some r ->
    exists r', m' !! k = Some r' /\ fare_fields r' = fare_fields r.

(** A promo row an operator would mean to write: a discount that is not
    negative, a percentage of at most 100, a cap that is not negative. *)
Definition promo_sane (p : PromoCode) : Prop :=
  (0 <= value p)%Q /\
  (promoType p <> "FIXED" -> (value p <= 100)%Q) /\
  (forall m, maxDiscount p = Some m -> (0 <= m)%Q).


(** ** Sample data *)

(** The limits the Redis documentation gives for [GEOADD]. *)
Definition redis_geo_valid (lng lat : Q) : bool :=
  Qle_bool (-180) lng && Qle_bool lng 180
  && Qle_bool (-(8505112878 # 100000000)) lat && Qle_bool lat (8505112878 # 100000000).


(** A stand-in for the distance of the geo index: 69 miles to the degree
    along each axis.  It is 0 between a point and itself, as the geodesic
    distance is. *)
Definition grid_miles (p q : Q * Q) : Q :=
  (69 * (Qabs (fst p - fst q) + Qabs (snd p - snd q)))%Q.

Definition sample_ride (s : RideStatus) (driver : option string) : Ride :=
  {| userId := "u1"; driverId := driver; status := s;
     pickupLat := 407128 # 10000; pickupLng := - (740060 # 10000);
     dropoffLat := 407128 # 10000; dropoffLng := - (740060 # 10000);
     distanceMiles := 0; durationMinutes := 5; serviceType := "VELOX";
     baseFare := 3; distanceFare := 0; timeFare := 125 # 100; surgeMult := 1;
     promoDiscount := 0; totalFare := 7; platformFee := 14 # 10;
     driverEarnings := 56 # 10; tip := 0; isScheduled := false;
     acceptedAt := None; arrivedAt := None; startedAt := None;
     completedAt := None; cancelledAt := None; cancelReason := None;
     cancelledBy := None; paymentStatus := None; stripePaymentIntentId := None |}.

Definition sample_driver (online : bool) (services : list string) : Driver :=
  mkDriver "Dana" "Reyes" "+15550100" 5 "APPROVED" online services None None None 0 0.

Definition no_redis : Redis := mkRedis ∅ ∅ ∅.

(** One ride [r1] of rider [u1], and three drivers: [d1] online and serving
    the ride's class, [d2] online, [d3] offline and serving another class. *)
Definition sample_world (s : RideStatus) (driver : option string) : World :=
  {| rides := {[ "r1" := sample_ride s driver ]};
     drivers := {[ "d1" := sample_driver true ["VELOX"];
                   "d2" := sample_driver true ["VELOX"; "VELOX_XL"];
                   "d3" := sample_driver false ["VELOX_BLACK"] ]};
     earnings := [];
     promoCodes := ∅;
     promoUsages := [];
     redis := no_redis;
     outbox := [];
     timers := [] |}.

(** ** What a handler leaves behind *)

Definition accepted_by (d : string) (t : Z) (r : Ride) : Ride :=
  apply_data [F_driverId d; F_status ACCEPTED; F_acceptedAt t] r.

Definition no_longer_available (attempt : string * Z) : Target * Event :=
  (to_socket (fst attempt), ride_accept_failed "Ride no longer available").

(** What a confirmed accept sends: the rider is told who accepted, and the
    driver gets the confirmation. *)
Definition confirmed_to (rideId : string) (r : Ride) (attempt : string * Z)
  : list (Target * Event) :=
  [(to_user (userId r), ride_accepted rideId (fst attempt));
   (to_socket (fst attempt), ride_accept_confirmed rideId (driverEarnings r))].

(** The ride after each of the attempts has written it, in order. *)
Definition accepted_in_turn (attempts : list (string * Z)) (r : Ride) : Ride :=
  fold_left (fun r a => accepted_by (fst a) (snd a) r) attempts r.

Definition completed_at (t : Z) (r : Ride) : Ride :=
  apply_data [F_status COMPLETED; F_completedAt t] r.

Definition earning_of (id rideId : string) (r : Ride) : Earning :=
  mkEarning id rideId (totalFare r) (platformFee r) (driverEarnings r) (tip r) "PENDING".

Definition completion_events (id rideId : string) (r : Ride) : list (Target * Event) :=
  [(to_user (userId r), ride_completed rideId (totalFare r));
   (to_socket id, ride_complete_confirmed rideId (driverEarnings r))].

Definition arrived_at (t : Z) (r : Ride) : Ride :=
  apply_data [F_status ARRIVED; F_arrivedAt t] r.

Definition expired (r : Ride) : Ride := apply_data [F_status NO_DRIVERS] r.

Definition access_denied : Response := mkResponse 403 (error_ "Access denied").

(** The ride [POST /request] creates for a request, its distance and the
    promo discount it settled on. *)
Definition requested_ride (id : string) (q : RideRequest) (distance discount : Q) : Ride :=
  let duration := Qceiling (distance * (25 # 10) + 5) in
  let fareDetails := calculateFare distance duration (q_serviceType q) 1 in
  let totalFare := (fd_totalFare fareDetails - discount)%Q in
  let platformFee := (totalFare * (20 / 100))%Q in
  {| userId := id; driverId := None; status := REQUESTED;
     pickupLat := q_pickupLat q; pickupLng := q_pickupLng q;
     dropoffLat := q_dropoffLat q; dropoffLng := q_dropoffLng q;
     distanceMiles := distance; durationMinutes := duration;
     serviceType := q_serviceType q;
     baseFare := fd_baseFare fareDetails;
     distanceFare := fd_distanceFare fareDetails;
     timeFare := fd_timeFare fareDetails;
     surgeMult := 1;
     promoDiscount := discount;
     totalFare := totalFare;
     platformFee := platformFee;
     driverEarnings := (totalFare - platformFee)%Q;
     tip := 0;
     isScheduled := scheduled q;
     acceptedAt := None; arrivedAt := None; startedAt := None;
     completedAt := None; cancelledAt := None;
     cancelReason := None; cancelledBy := None;
     paymentStatus := None; stripePaymentIntentId := None |}.

(** The fare a request is quoted before any promo. *)
Definition quoted_fare (q : RideRequest) (distance : Q) : Q :=
  fd_totalFare (calculateFare distance (Qceiling (distance * (25 # 10) + 5))
                              (q_serviceType q) 1).

(** The rider has no ride in an active status. *)
Definition no_active_ride (id : string) (m : gmap string Ride) : Prop :=
  forall k r, m !! k = Some r -> userId r = id -> is_active (status r) = false.

(** A percentage promo of 150 without a cap, as [POST /admin/promos]
    stores it unchecked. *)
Definition promo_150 : PromoCode :=
  mkPromoCode "p150" "PERCENTAGE" 150 None true None None 0 1 None.

Definition promo_25 : PromoCode :=
  mkPromoCode "p25" "PERCENTAGE" 25 (Some 15%Q) true None (Some 500%Z) 0 1 None.

Definition with_promos (m : gmap string PromoCode) (w : World) : World :=
  mkWorld (rides w) (drivers w) (earnings w) m (promoUsages w) (redis w) (outbox w)
          (timers w).

(** A request whose pickup and dropoff coincide (distance 0), with a promo
    code. *)
Definition short_request (code : string) : RideRequest :=
  mkRideRequest "1 Main St" (407128 # 10000) (- (740060 # 10000))
                "1 Main St" (407128 # 10000) (- (740060 # 10000))
                "VELOX" None (Some code).

(** A request whose pickup and dropoff coincide, with no promo code and no
    schedule. *)
Definition plain_request : RideRequest :=
  mkRideRequest "1 Main St" (407128 # 10000) (- (740060 # 10000))
                "1 Main St" (407128 # 10000) (- (740060 # 10000))
                "VELOX" None None.

(** Rider [u1]'s ride [r1], which had driver [d1], is CANCELLED; driver [d1]
    is in the pool next to the pickup point; [u1] then asks for another
    ride, which is created as [r2] and offered to [d1]. *)
Definition rebooked_world : World :=
  snd (post_request grid_miles "u1" "user" plain_request 0 "r2" 5000
         (snd (updateDriverLocation redis_geo_valid "d1" (407128 # 10000)
                 (- (740060 # 10000)) 0 (sample_world CANCELLED (Some "d1"))))).

(** ** Relations between the world before and after a handler *)

(** Whatever the outcome of [c], the world it leaves is related by [R] to
    the world it started in. *)
Definition respects (R : World -> World -> Prop) {A} (c : M A) : Prop :=
  forall w, R w (snd (c w)).

Definition fares_kept (w w' : World) : Prop := same_fares (rides w) (rides w').

Definition rides_kept (w w' : World) : Prop := rides w' = rides w.

(** ** More of the sources *)

(** *** [src/config/redis.js]: the live ride state *)

Definition getRideState (rideId : string) (now : Z) : M (option RideState) :=
  gets (fun w => live now (ride_state (redis w) !! rideId)).

(** *** [src/utils/pricing.js]: duration and surge *)

(** [hour] is [new Date(timeOfDay).getHours()] when a [timeOfDay] is given. *)
Definition calculateDuration (distanceMiles : Q) (hour : option Z) : Z :=
  let avgSpeed :=
    match hour with
    | Some hour =>
        if ((7 <=? hour) && (hour <=? 9) || (16 <=? hour) && (hour <=? 18))%Z then 15%Q
        else if ((22 <=? hour) || (hour <=? 5))%Z then 35%Q
        else 25%Q
    | None => 25%Q
    end in
  let minutes := (distanceMiles / avgSpeed * 60)%Q in
  Qceiling (minutes * (12 # 10)).

Definition calculateSurge (pickupLat pickupLng requestCount driverCount : Q) : Q :=
  if Qeq_bool driverCount 0 then 2%Q else
  let ratio := (requestCount / driverCount)%Q in
  if Qle_bool ratio 1 then 1%Q
  else if Qle_bool ratio 2 then (125 # 100)%Q
  else if Qle_bool ratio 3 then (15 # 10)%Q
  else if Qle_bool ratio 5 then (175 # 100)%Q
  else 2%Q.

(** *** [src/routes/drivers.js]: [POST /api/drivers/status]

    [lat] and [lng] are optional in the body; [lat && lng] is false when
    either is missing or is the number 0.  The answer also echoes
    [online]. *)




(** *** Statements about lists of candidates *)

Definition by_distance (a b : string * Q) : Prop := (snd a <= snd b)%Q.

(** The driver row passes the filter of [getAvailableDriversForService]. *)
Definition serves (service : string) (d : Driver) : Prop :=
  approval d = "APPROVED" /\ isOnline d = true /\ In service (serviceTypes d).

Definition offer_to (rideId : string) (fare : Q) (d : string * Q) : Target * Event :=
  (to_driver (fst d), ride_request rideId fare (snd d)).

Definition cancelled_by (type : string) (reason : option string) (now : Z) (r : Ride) : Ride :=
  apply_data (cancel_data type reason now) r.

Definition cancellation_fee (type : string) (r : Ride) : Q :=
  if bool_decide (is_Some (driverId r)) && is_user type then 5%Q else 0%Q.

Definition started_at (t : Z) (r : Ride) : Ride :=
  apply_data [F_status IN_PROGRESS; F_startedAt t] r.

(** The promo tables are what they were. *)
Definition promos_kept (w w' : World) : Prop :=
  promoCodes w' = promoCodes w /\ promoUsages w' = promoUsages w.

(** The cache is what it was. *)
Definition redis_kept (w w' : World) : Prop := redis w' = redis w.

(** What [findNearbyDrivers] answers in world [w]. *)
Definition nearby (geo_dist : Q * Q -> Q * Q -> Q) (lat lng radiusMiles : Q) (limit : nat)
    (w : World) : list (string * Q) :=
  take limit (sort_asc (omap (within geo_dist lng lat radiusMiles)
                             (map_to_list (drivers_online (redis w))))).

(** The test [getAvailableDriversForService] applies to one candidate. *)
Definition available_in (w : World) (service : string) (e : string * Q) : bool :=
  match drivers w !! fst e with
  | Some d => String.eqb (approval d) "APPROVED" && isOnline d
              && bool_decide (service ∈ serviceTypes d)
  | None => false
  end.

Definition tipped (amount : Q) (r : Ride) : Ride := apply_data [F_tip amount] r.

(** The channel and the timers are what they were. *)
Definition channel_kept (w w' : World) : Prop :=
  outbox w' = outbox w /\ timers w' = timers w.

(** Nothing at all has changed. *)
Definition world_kept (w w' : World) : Prop := w' = w.

(** * Properties *)

Ltac run :=
  repeat (unfold mbind, M_bind, mret, M_ret, bind, ret, throw, try_catch, gets,
                 modify, emit, ride_findUnique, driver_findUnique in *; simpl in *).

(** ** The accept handler *)

Lemma accept_requested w rideId r d rec t :
  rides w !! rideId = Some r -> status r = REQUESTED -> drivers w !! d = Some rec ->
  driver_accept_ride d "driver" rideId t w =
  (Done tt,
   set_outbox (fun o => o ++ [(to_user (userId r), ride_accepted rideId d);
                              (to_socket d, ride_accept_confirmed rideId (driverEarnings r))])
     (set_rides (insert rideId (accepted_by d t r)) w)).
Proof.
  intros Hr Hs Hd. unfold driver_accept_ride, accept_read, accept_write, ride_update. run.
  rewrite Hr. run. rewrite Hs. run. rewrite Hd, Hr. run.
  unfold set_outbox, set_rides. simpl. rewrite <- app_assoc. reflexivity.
Qed.

Lemma accept_not_requested w rideId d t :
  (forall r, rides w !! rideId = Some r -> status r <> REQUESTED) ->
  driver_accept_ride d "driver" rideId t w =
  (Done tt, set_outbox (fun o => o ++ [no_longer_available (d, t)]) w).
Proof.
  intros Hs. unfold driver_accept_ride, accept_read. run.
  destruct (rides w !! rideId) as [r|] eqn:Hr; run; [|reflexivity].
  destruct (decide (status r = REQUESTED)) as [e|n]; run; [|reflexivity].
  exfalso. exact (Hs r eq_refl e).
Qed.

Lemma accept_reads_requested rideId r attempts : forall w,
  rides w !! rideId = Some r -> status r = REQUESTED ->
  accept_reads attempts rideId w =
    (Done (map (fun a => (fst a, snd a, Some r)) attempts), w).
Proof.
  induction attempts as [|a rest IH]; intros w Hr Hs; [reflexivity|].
  simpl. unfold mbind at 1, M_bind at 1, bind at 1.
  assert (E : try_catch (accept_read (fst a) rideId)
                        (fun e => accept_catch (fst a) e ;; ret None) w
              = (Done (Some r), w)).
  { unfold accept_read. run. rewrite Hr. run. rewrite Hs. reflexivity. }
  rewrite E. unfold mbind at 1, M_bind at 1, bind at 1.
  rewrite (IH w Hr Hs). reflexivity.
Qed.

Lemma accept_write_confirmed w rideId r cur d rec t :
  rides w !! rideId = Some cur -> drivers w !! d = Some rec ->
  try_catch (accept_write d rideId t r) (accept_catch d) w =
    (Done tt,
     set_outbox (fun o => o ++ confirmed_to rideId r (d, t))
       (set_rides (insert rideId (accepted_by d t cur)) w)).
Proof.
  intros Hr Hd. unfold accept_write, ride_update. run. rewrite Hd, Hr. run.
  unfold set_outbox, set_rides. simpl. rewrite <- app_assoc. reflexivity.
Qed.

Lemma accept_writes_confirmed rideId r attempts : forall w cur,
  rides w !! rideId = Some cur ->
  (forall a, In a attempts -> is_Some (drivers w !! fst a)) ->
  accept_writes (map (fun a => (fst a, snd a, Some r)) attempts) rideId w =
    (Done tt,
     set_outbox (fun o => o ++ flat_map (confirmed_to rideId r) attempts)
       (set_rides (insert rideId (accepted_in_turn attempts cur)) w)).
Proof.
  induction attempts as [|[d t] rest IH]; intros w cur Hr Hd.
  - simpl. unfold ret, set_outbox, set_rides. rewrite app_nil_r, (insert_id _ _ _ Hr).
    destruct w; reflexivity.
  - destruct (Hd (d, t) (or_introl eq_refl)) as [rec Hrec].
    simpl. unfold mbind at 1, M_bind at 1, bind at 1.
    rewrite (accept_write_confirmed w rideId r cur d rec t Hr Hrec).
    rewrite (IH _ (accepted_by d t cur)).
    + unfold set_outbox, set_rides, accepted_in_turn. simpl.
      rewrite insert_insert_eq, <- app_assoc. reflexivity.
    + simpl. apply lookup_insert_eq.
    + intros a Ha. simpl. apply Hd. right. exact Ha.
Qed.

Lemma accepted_in_turn_last attempts : forall r,
  attempts <> [] ->
  status (accepted_in_turn attempts r) = ACCEPTED
  /\ driverId (accepted_in_turn attempts r) = fst <$> last attempts.
Proof.
  induction attempts as [|a rest IH]; intros r Hne; [contradiction|].
  destruct rest as [|b rest].
  - split; reflexivity.
  - change (accepted_in_turn (a :: b :: rest) r)
      with (accepted_in_turn (b :: rest) (accepted_by (fst a) (snd a) r)).
    change (last (a :: b :: rest)) with (last (b :: rest)).
    apply IH. discriminate.
Qed.

(** C2, on the code.  The status test and the update of the accept handler
    are separate statements with an [await] between them.  When the accept
    events of several drivers (each holding a record) for one REQUESTED ride
    are in flight together, so that every handler has read the ride before
    any has written it, every one of them is confirmed, none is answered
    'Ride no longer available', the rider is told of each, and the ride is
    left ACCEPTED with the id of the driver who wrote last. *)
Theorem accepts_in_flight_all_confirmed w rideId r first later :
  rides w !! rideId = Some r -> status r = REQUESTED ->
  (forall a, In a (first :: later) -> is_Some (drivers w !! fst a)) ->
  let attempts := first :: later in
  let w' := snd (accept_in_flight attempts rideId w) in
  fst (accept_in_flight attempts rideId w) = Done tt
  /\ outbox w' = outbox w ++ flat_map (confirmed_to rideId r) attempts
  /\ (forall a, In a attempts ->
        In (to_socket (fst a), ride_accept_confirmed rideId (driverEarnings r)) (outbox w'))
  /\ (forall a, ~ In (no_longer_available a) (flat_map (confirmed_to rideId r) attempts))
  /\ rides w' !! rideId = Some (accepted_in_turn attempts r)
  /\ status (accepted_in_turn attempts r) = ACCEPTED
  /\ driverId (accepted_in_turn attempts r) = fst <$> last attempts.
Proof.
  intros Hr Hs Hd attempts w'. subst w'.
  assert (E : accept_in_flight attempts rideId w =
              (Done tt,
               set_outbox (fun o => o ++ flat_map (confirmed_to rideId r) attempts)
                 (set_rides (insert rideId (accepted_in_turn attempts r)) w))).
  { unfold accept_in_flight. unfold mbind at 1, M_bind at 1, bind at 1.
    rewrite (accept_reads_requested rideId r attempts w Hr Hs).
    exact (accept_writes_confirmed rideId r attempts w r Hr Hd). }
  rewrite E. clear E. unfold set_outbox, set_rides. cbn [fst snd outbox rides].
  split; [reflexivity|]. split; [reflexivity|]. split; [|split; [|split]].
  - intros a Ha. apply in_or_app. right.
    apply in_flat_map. exists a. split; [exact Ha|]. right. left. reflexivity.
  - intros a Ha. apply in_flat_map in Ha. destruct Ha as (b & _ & Hb).
    destruct Hb as [Hb | [Hb | []]]; discriminate Hb.
  - apply lookup_insert_eq.
  - apply accepted_in_turn_last. discriminate.
Qed.

(** [d2]'s accept arrives while [d1]'s read is pending: both are confirmed
    and the ride is [d2]'s. *)
Lemma accepts_in_flight_all_confirmed_witness :
  let w' := snd (accept_in_flight [("d1", 1000%Z); ("d2", 1001%Z)] "r1"
                   (sample_world REQUESTED None)) in
  outbox w' = [(to_user "u1", ride_accepted "r1" "d1");
               (to_socket "d1", ride_accept_confirmed "r1" (56 # 10));
               (to_user "u1", ride_accepted "r1" "d2");
               (to_socket "d2", ride_accept_confirmed "r1" (56 # 10))]
  /\ status <$> rides w' !! "r1" = Some ACCEPTED
  /\ driverId <$> rides w' !! "r1" = Some (Some "d2").
Proof.
  assert (Hd : forall a, In a [("d1", 1000%Z); ("d2", 1001%Z)] ->
                 is_Some (drivers (sample_world REQUESTED None) !! fst a)).
  { intros a [<- | [<- | []]]; eexists; reflexivity. }
  destruct (accepts_in_flight_all_confirmed (sample_world REQUESTED None) "r1"
              (sample_ride REQUESTED None) ("d1", 1000%Z) [("d2", 1001%Z)]
              eq_refl eq_refl Hd) as (_ & Ho & _ & _ & Hr & Hs & Hl).
  cbv zeta. split; [exact Ho|]. rewrite Hr.
  split; [exact (f_equal Some Hs) | exact (f_equal Some Hl)].
Defined.

(** When the first handler has finished before the second event arrives,
    the second reads ACCEPTED and is refused. *)
Remark accept_after_accept_is_refused :
  let w1 := snd (driver_accept_ride "d1" "driver" "r1" 1000 (sample_world REQUESTED None)) in
  let w2 := snd (driver_accept_ride "d2" "driver" "r1" 1001 w1) in
  rides w2 = rides w1
  /\ driverId <$> rides w2 !! "r1" = Some (Some "d1")
  /\ outbox w2 = outbox w1 ++ [(to_socket "d2", ride_accept_failed "Ride no longer available")].
Proof. vm_compute. repeat split; reflexivity. Qed.

(** C9.  The accept handler looks at the ride only: whenever the ride exists
    in status REQUESTED, the attempt of any driver holding a record is
    confirmed and the ride becomes that driver's (status ACCEPTED, the
    driver's id, the instant of the accept), whatever the driver's online
    flag, service classes, approval or place in the geo index, and whether
    or not an offer was ever sent to that driver; in every other case the
    attempt is answered 'Ride no longer available' and the ride table is
    untouched. *)
Theorem accept_checks_ride_only w rideId d rec t :
  drivers w !! d = Some rec ->
  (forall r, rides w !! rideId = Some r -> status r = REQUESTED ->
     driver_accept_ride d "driver" rideId t w =
       (Done tt,
        set_outbox (fun o => o ++ [(to_user (userId r), ride_accepted rideId d);
                                   (to_socket d, ride_accept_confirmed rideId (driverEarnings r))])
          (set_rides (insert rideId (accepted_by d t r)) w))
     /\ rides (snd (driver_accept_ride d "driver" rideId t w)) !! rideId
        = Some (accepted_by d t r)
     /\ status (accepted_by d t r) = ACCEPTED
     /\ driverId (accepted_by d t r) = Some d
     /\ acceptedAt (accepted_by d t r) = Some t)
  /\ ((forall r, rides w !! rideId = Some r -> status r <> REQUESTED) ->
     driver_accept_ride d "driver" rideId t w =
       (Done tt, set_outbox (fun o => o ++ [no_longer_available (d, t)]) w)
     /\ rides (snd (driver_accept_ride d "driver" rideId t w)) = rides w
     /\ outbox (snd (driver_accept_ride d "driver" rideId t w)) =
          outbox w ++ [(to_socket d, ride_accept_failed "Ride no longer available")]).
Proof.
  intros Hd. split.
  - intros r Hr Hs. rewrite (accept_requested w rideId r d rec t Hr Hs Hd).
    split; [reflexivity|]. split; [simpl; apply lookup_insert_eq|].
    repeat split.
  - intros Hs. rewrite (accept_not_requested w rideId d t Hs). repeat split.
Qed.

(** [d3] is offline, serves VELOX_BLACK only, is absent from the geo index
    and was sent no offer; the ride is a VELOX ride. *)
Lemma accept_checks_ride_only_witness :
  let w' := snd (driver_accept_ride "d3" "driver" "r1" 1000 (sample_world REQUESTED None)) in
  outbox w' = [(to_user "u1", ride_accepted "r1" "d3");
               (to_socket "d3", ride_accept_confirmed "r1" (56 # 10))]
  /\ rides w' !! "r1" = Some (accepted_by "d3" 1000 (sample_ride REQUESTED None))
  /\ status (accepted_by "d3" 1000 (sample_ride REQUESTED None)) = ACCEPTED
  /\ driverId (accepted_by "d3" 1000 (sample_ride REQUESTED None)) = Some "d3".
Proof.
  destruct (proj1 (accept_checks_ride_only (sample_world REQUESTED None) "r1" "d3"
                     (sample_driver false ["VELOX_BLACK"]) 1000 eq_refl)
                  (sample_ride REQUESTED None) eq_refl eq_refl)
    as (Hrun & Hr & Hs & Hd & _).
  cbv zeta. rewrite Hrun. split; [reflexivity|]. split; [exact Hr|].
  split; [exact Hs | exact Hd].
Defined.

(** ** Completing a trip *)

Lemma complete_step uniq w rideId r id d x dx t :
  rides w !! rideId = Some r -> drivers w !! id = Some d ->
  driverId r = Some x -> drivers w !! x = Some dx ->
  uniq && existsb (has_ride rideId) (earnings w) = false ->
  driver_complete_trip uniq id "driver" rideId t w =
  (Done tt,
   set_outbox (fun o => o ++ completion_events id rideId r)
     (set_redis (fun c => mkRedis (driver_location c) (drivers_online c)
                                  (delete rideId (ride_state c)))
        (set_drivers (insert id (count_ride d (driverEarnings r)))
           (set_earnings (fun es => es ++ [earning_of id rideId r])
              (set_rides (insert rideId (completed_at t r)) w))))).
Proof.
  intros Hr Hd Hx Hdx Hu.
  unfold driver_complete_trip, ride_update, earning_create, driver_update, clearRideState.
  run. rewrite Hr. run. rewrite Hx. run. rewrite Hdx. run. rewrite Hu. run.
  rewrite Hd. run.
  unfold set_outbox, set_redis, set_drivers, set_earnings, set_rides, completion_events.
  simpl. rewrite <- app_assoc. reflexivity.
Qed.

Lemma complete_step_refused w rideId r id t :
  rides w !! rideId = Some r ->
  existsb (has_ride rideId) (earnings w) = true ->
  driver_complete_trip true id "driver" rideId t w =
  (Threw P2002, set_rides (insert rideId (completed_at t r)) w).
Proof.
  intros Hr He. unfold driver_complete_trip, ride_update, earning_create.
  run. rewrite Hr. run. rewrite He. reflexivity.
Qed.

(** C1.  The completion handler run twice on one ride, by the driver the
    ride is assigned to.  The first run is confirmed.  The second is never
    answered with a rejection: it rewrites the ride (a new [completedAt]) and,
    where [Earning.rideId] is not unique, appends a second earning for the
    ride, counts it again in the driver's totals and is confirmed again;
    where it is unique, the insert throws after the ride was rewritten and
    nothing is sent to the driver. *)
Theorem second_completion_not_rejected uniq w rideId r id d t1 t2 :
  rides w !! rideId = Some r -> drivers w !! id = Some d -> driverId r = Some id ->
  existsb (has_ride rideId) (earnings w) = false ->
  let a := driverEarnings r in
  let '(o1, w1) := driver_complete_trip uniq id "driver" rideId t1 w in
  let '(o2, w2) := driver_complete_trip uniq id "driver" rideId t2 w1 in
  o1 = Done tt
  /\ earnings w1 = earnings w ++ [earning_of id rideId r]
  /\ outbox w1 = outbox w ++ completion_events id rideId r
  /\ rides w2 !! rideId = Some (completed_at t2 (completed_at t1 r))
  /\ (uniq = false ->
        o2 = Done tt
        /\ earnings w2 = earnings w ++ [earning_of id rideId r; earning_of id rideId r]
        /\ drivers w2 !! id = Some (count_ride (count_ride d a) a)
        /\ outbox w2 = outbox w1 ++ completion_events id rideId r)
  /\ (uniq = true ->
        o2 = Threw P2002
        /\ earnings w2 = earnings w1
        /\ drivers w2 !! id = Some (count_ride d a)
        /\ outbox w2 = outbox w1).
Proof.
  intros Hr Hd Hx He a.
  rewrite (complete_step uniq w rideId r id d id d t1 Hr Hd Hx Hd)
    by (rewrite He; apply andb_false_r).
  set (w1 := set_outbox _ _).
  assert (Hr1 : rides w1 !! rideId = Some (completed_at t1 r))
    by (simpl; apply lookup_insert_eq).
  assert (Hd1 : drivers w1 !! id = Some (count_ride d a))
    by (simpl; apply lookup_insert_eq).
  destruct uniq.
  - (* unique: the second insert is refused *)
    rewrite (complete_step_refused w1 rideId (completed_at t1 r) id t2 Hr1).
    + simpl. do 3 (split; [reflexivity|]). split; [apply lookup_insert_eq|].
      split; [discriminate|]. intros _. do 2 (split; [reflexivity|]).
      split; [apply lookup_insert_eq | reflexivity].
    + simpl. rewrite existsb_app. simpl.
      unfold has_ride at 2. simpl. rewrite String.eqb_refl. apply orb_true_r.
  - rewrite (complete_step false w1 rideId (completed_at t1 r) id (count_ride d a) id
               (count_ride d a) t2 Hr1 Hd1 Hx Hd1 eq_refl).
    simpl. do 3 (split; [reflexivity|]). split; [apply lookup_insert_eq|].
    split; [|discriminate]. intros _. split; [reflexivity|].
    split; [rewrite <- app_assoc; reflexivity|].
    split; [apply lookup_insert_eq | reflexivity].
Qed.

Lemma second_completion_not_rejected_witness :
  let '(o1, w1) := driver_complete_trip false "d1" "driver" "r1" 9000
                     (sample_world IN_PROGRESS (Some "d1")) in
  let '(o2, w2) := driver_complete_trip false "d1" "driver" "r1" 9500 w1 in
  o2 = Done tt
  /\ map e_rideId (earnings w2) = ["r1"; "r1"]
  /\ totalRides <$> drivers w2 !! "d1" = Some 2%Z
  /\ outbox w2 = [(to_user "u1", ride_completed "r1" 7);
                  (to_socket "d1", ride_complete_confirmed "r1" (56 # 10));
                  (to_user "u1", ride_completed "r1" 7);
                  (to_socket "d1", ride_complete_confirmed "r1" (56 # 10))].
Proof.
  pose proof (second_completion_not_rejected false (sample_world IN_PROGRESS (Some "d1"))
                "r1" (sample_ride IN_PROGRESS (Some "d1")) "d1"
                (sample_driver true ["VELOX"]) 9000 9500
                eq_refl eq_refl eq_refl eq_refl) as H.
  cbv zeta in H.
  destruct (driver_complete_trip false "d1" "driver" "r1" 9000
              (sample_world IN_PROGRESS (Some "d1"))) as [o1 w1].
  destruct (driver_complete_trip false "d1" "driver" "r1" 9500 w1) as [o2 w2].
  destruct H as (_ & _ & Ho1 & _ & H & _).
  destruct (H eq_refl) as (-> & -> & -> & ->).
  rewrite Ho1. repeat split.
Defined.

(** ** Terminal rides *)

Lemma cancel_denied w id type rideId reason now r :
  rides w !! rideId = Some r ->
  (is_user type = true /\ userId r <> id) \/ (is_driver type = true /\ driverId r <> Some id) ->
  post_cancel id type rideId reason now w = (Done access_denied, w).
Proof.
  intros Hr H. unfold post_cancel, asyncHandler. run. rewrite Hr. run.
  destruct H as [[Ht Hn]|[Ht Hn]]; rewrite Ht; simpl.
  - rewrite bool_decide_eq_false_2 by exact Hn. reflexivity.
  - destruct (is_user type && negb (bool_decide (userId r = id))); [reflexivity|].
    rewrite bool_decide_eq_false_2 by exact Hn. reflexivity.
Qed.





(** ** The expiry timer *)





(** A matching round with a candidate: the offer goes out and one timer is
    set, 30 seconds ahead, for this ride and its rider.  The candidate's
    only position is 400 seconds old by then. *)
Remark matching_sets_one_timer :
  let w := snd (updateDriverLocation redis_geo_valid "d1" (407128 # 10000)
                  (- (740060 # 10000)) 0 (sample_world REQUESTED None)) in
  let w' := snd (startDriverMatching grid_miles "r1" 400000 w) in
  timers w' = [mkTimer "r1" "u1" 430000]
  /\ map fst (outbox w') = [to_driver "d1"]
  /\ status <$> rides w' !! "r1" = Some REQUESTED.
Proof. vm_compute. repeat split; reflexivity. Qed.

(** ** Who may read and cancel a ride *)

Lemma get_denied w id type rideId now r :
  rides w !! rideId = Some r ->
  (is_user type = true /\ userId r <> id) \/ (is_driver type = true /\ driverId r <> Some id) ->
  get_ride id type rideId now w = (Done access_denied, w).
Proof.
  intros Hr H. unfold get_ride, asyncHandler. run. rewrite Hr. run.
  destruct H as [[Ht Hn]|[Ht Hn]]; rewrite Ht; simpl.
  - rewrite bool_decide_eq_false_2 by exact Hn. reflexivity.
  - destruct (is_user type && negb (bool_decide (userId r = id))); [reflexivity|].
    rewrite bool_decide_eq_false_2 by exact Hn. reflexivity.
Qed.

Lemma get_granted w id type rideId now r :
  rides w !! rideId = Some r -> is_rider_of id type r \/ is_driver_of id type r ->
  exists driverLocation,
    get_ride id type rideId now w = (Done (mkResponse 200 (ride_ r driverLocation)), w).
Proof.
  intros Hr H. unfold get_ride, asyncHandler, getDriverLocation. run. rewrite Hr. run.
  assert (Hpass : is_user type && negb (bool_decide (userId r = id)) = false
                  /\ is_driver type && negb (bool_decide (driverId r = Some id)) = false).
  { destruct H as [[-> Hu] | [-> Hd]]; simpl.
    - rewrite bool_decide_eq_true_2 by exact Hu. split; reflexivity.
    - rewrite bool_decide_eq_true_2 by exact Hd. split; reflexivity. }
  destruct Hpass as [-> ->].
  destruct (driverId r) as [x|]; [|eexists; reflexivity].
  destruct (bool_decide (status r ∈ [ACCEPTED; ARRIVING; ARRIVED; IN_PROGRESS]));
    eexists; reflexivity.
Qed.

Lemma not_owner id type r :
  type = "user" \/ type = "driver" ->
  ~ is_rider_of id type r -> ~ is_driver_of id type r ->
  (is_user type = true /\ userId r <> id) \/ (is_driver type = true /\ driverId r <> Some id).
Proof.
  unfold is_rider_of, is_driver_of. intros [-> | ->] Hr Hd.
  - left. split; [reflexivity|]. intros E. apply Hr. split; [reflexivity | exact E].
  - right. split; [reflexivity|]. intros E. apply Hd. split; [reflexivity | exact E].
Qed.

(** What the two tests do for the types they name: an identity of type
    user or driver that is neither the ride's rider nor the driver assigned
    to it is answered 403 'Access denied' by the read and by the
    cancellation, and the world stays as it was; the rider and the assigned
    driver do read the ride. *)
Lemma ride_access_is_owner_only w id type rideId reason now r :
  type = "user" \/ type = "driver" ->
  rides w !! rideId = Some r ->
  (~ is_rider_of id type r -> ~ is_driver_of id type r ->
     get_ride id type rideId now w = (Done access_denied, w)
     /\ post_cancel id type rideId reason now w = (Done access_denied, w))
  /\ (is_rider_of id type r \/ is_driver_of id type r ->
      exists driverLocation,
        get_ride id type rideId now w = (Done (mkResponse 200 (ride_ r driverLocation)), w)).
Proof.
  intros Ht Hr. split.
  - intros H1 H2. pose proof (not_owner id type r Ht H1 H2) as H. split.
    + exact (get_denied w id type rideId now r Hr H).
    + exact (cancel_denied w id type rideId reason now r Hr H).
  - apply get_granted. exact Hr.
Qed.

Lemma other_type_passes type :
  type <> "user" -> type <> "driver" -> is_user type = false /\ is_driver type = false.
Proof.
  intros Hu Hd. unfold is_user, is_driver. split; apply String.eqb_neq; assumption.
Qed.

Lemma cancelled_by_fields type reason now r :
  status (cancelled_by type reason now r) = CANCELLED
  /\ cancelledAt (cancelled_by type reason now r) = Some now
  /\ cancelledBy (cancelled_by type reason now r)
     = Some (if is_user type then "RIDER" else "DRIVER")
  /\ cancelReason (cancelled_by type reason now r)
     = match reason with Some s => Some s | None => cancelReason r end.
Proof. destruct reason; repeat split. Qed.

(** C10, on the code.  The ownership tests of the read and of the
    cancellation name the types 'user' and 'driver' and nothing else.  An
    authenticated identity of any other type is never refused, whoever the
    ride belongs to: it reads every ride, and it cancels every ride that is
    neither COMPLETED nor CANCELLED; the cancellation is recorded as the
    driver's and carries no fee. *)
Theorem other_identity_reads_and_cancels w id type rideId reason now r :
  type <> "user" -> type <> "driver" ->
  rides w !! rideId = Some r ->
  (exists driverLocation,
     get_ride id type rideId now w = (Done (mkResponse 200 (ride_ r driverLocation)), w))
  /\ (status r <> COMPLETED -> status r <> CANCELLED ->
      fst (post_cancel id type rideId reason now w) = Done (mkResponse 200 (cancelled_ 0))
      /\ rides (snd (post_cancel id type rideId reason now w)) !! rideId
         = Some (cancelled_by type reason now r)
      /\ status (cancelled_by type reason now r) = CANCELLED
      /\ cancelledBy (cancelled_by type reason now r) = Some "DRIVER").
Proof.
  intros Hu Hd Hr. destruct (other_type_passes type Hu Hd) as [Eu Ed]. split.
  - unfold get_ride, asyncHandler, getDriverLocation. run. rewrite Hr. run.
    rewrite Eu, Ed. simpl.
    destruct (driverId r) as [x|]; [|eexists; reflexivity].
    destruct (bool_decide (status r ∈ [ACCEPTED; ARRIVING; ARRIVED; IN_PROGRESS]));
      eexists; reflexivity.
  - intros Hc Hx.
    destruct (cancelled_by_fields type reason now r) as (Hs & _ & Hb & _).
    rewrite Eu in Hb.
    assert (E : post_cancel id type rideId reason now w =
                (Done (mkResponse 200 (cancelled_ 0)),
                 set_outbox (fun o => o ++ [(to_ride rideId, ride_cancelled rideId type 0)])
                   (set_redis (fun c => mkRedis (driver_location c) (drivers_online c)
                                                (delete rideId (ride_state c)))
                      (set_rides (insert rideId (cancelled_by type reason now r)) w)))).
    { unfold post_cancel, asyncHandler, ride_update, clearRideState. run. rewrite Hr. run.
      rewrite Eu, Ed. simpl.
      rewrite bool_decide_eq_false_2.
      2:{ intros Hin. apply elem_of_cons in Hin. destruct Hin as [E|Hin]; [contradiction|].
          apply elem_of_cons in Hin. destruct Hin as [E|Hin]; [contradiction|].
          apply elem_of_nil in Hin. exact Hin. }
      rewrite Hr. run. rewrite andb_false_r.
      unfold cancelled_by, cancel_data. rewrite Eu. reflexivity. }
    rewrite E. split; [reflexivity|]. split; [simpl; apply lookup_insert_eq|].
    split; [exact Hs | exact Hb].
Qed.

(** The admin login signs a token of type 'admin' for the id 'admin-1' with
    the secret the rider and driver tokens are verified with.  With it, the
    ride of rider [u1] and driver [d1] is read and then cancelled. *)
Lemma other_identity_reads_and_cancels_witness :
  let w := sample_world ACCEPTED (Some "d1") in
  (exists driverLocation,
     get_ride "admin-1" "admin" "r1" 9000 w =
       (Done (mkResponse 200 (ride_ (sample_ride ACCEPTED (Some "d1")) driverLocation)), w))
  /\ fst (post_cancel "admin-1" "admin" "r1" None 9000 w) = Done (mkResponse 200 (cancelled_ 0))
  /\ status <$> rides (snd (post_cancel "admin-1" "admin" "r1" None 9000 w)) !! "r1"
     = Some CANCELLED
  /\ cancelledBy <$> rides (snd (post_cancel "admin-1" "admin" "r1" None 9000 w)) !! "r1"
     = Some (Some "DRIVER").
Proof.
  assert (Hu : "admin" <> "user") by discriminate.
  assert (Hd : "admin" <> "driver") by discriminate.
  destruct (other_identity_reads_and_cancels (sample_world ACCEPTED (Some "d1"))
              "admin-1" "admin" "r1" None 9000 (sample_ride ACCEPTED (Some "d1"))
              Hu Hd eq_refl) as [Hget Hcancel].
  assert (Hc : ACCEPTED <> COMPLETED) by discriminate.
  assert (Hx : ACCEPTED <> CANCELLED) by discriminate.
  destruct (Hcancel Hc Hx) as (H1 & H2 & H3 & H4).
  cbv zeta. split; [exact Hget|]. split; [exact H1|]. rewrite H2.
  split; [exact (f_equal Some H3) | exact (f_equal Some H4)].
Defined.

(** ** Relations every step of a handler respects *)

Section Frame.

Variable R : World -> World -> Prop.
Hypothesis R_refl : forall w, R w w.
Hypothesis R_trans : forall a b c, R a b -> R b c -> R a c.

Lemma respects_ret {A} (a : A) : respects R (ret a).
Proof. intros w. apply R_refl. Qed.

Lemma respects_mret {A} (a : A) : respects R (mret a : M A).
Proof. intros w. apply R_refl. Qed.

Lemma respects_throw {A} (e : Exn) : respects R (@throw A e).
Proof. intros w. apply R_refl. Qed.

Lemma respects_gets {A} (f : World -> A) : respects R (gets f).
Proof. intros w. apply R_refl. Qed.

Lemma respects_modify f : (forall w, R w (f w)) -> respects R (modify f).
Proof. intros H w. apply H. Qed.

Lemma respects_bind {A B} (c : M A) (k : A -> M B) :
  respects R c -> (forall a, respects R (k a)) -> respects R (c ≫= k).
Proof.
  intros Hc Hk w. unfold mbind, M_bind, bind. specialize (Hc w).
  destruct (c w) as [[a|e] w']; simpl in *; [|exact Hc].
  apply (R_trans _ _ _ Hc). apply Hk.
Qed.

Lemma respects_try_catch {A} (c : M A) (h : Exn -> M A) :
  respects R c -> (forall e, respects R (h e)) -> respects R (try_catch c h).
Proof.
  intros Hc Hh w. unfold try_catch. specialize (Hc w).
  destruct (c w) as [[a|e] w']; simpl in *; [exact Hc|].
  apply (R_trans _ _ _ Hc). apply Hh.
Qed.

Lemma respects_mapM {A B} (f : A -> M B) (l : list A) :
  (forall a, respects R (f a)) -> respects R (mapM f l).
Proof.
  intros Hf. induction l as [|a l IH]; simpl.
  - apply respects_mret.
  - apply respects_bind; [apply Hf|]. intros b.
    apply respects_bind; [exact IH|]. intros bs. apply respects_mret.
Qed.

End Frame.

(** *** Writes that leave the fares alone *)

Lemma fares_kept_refl w : fares_kept w w.
Proof. intros k r Hr. exists r. split; [exact Hr | reflexivity]. Qed.

Lemma fares_kept_trans a b c : fares_kept a b -> fares_kept b c -> fares_kept a c.
Proof.
  intros Hab Hbc k r Hr. destruct (Hab k r Hr) as (r' & Hr' & E).
  destruct (Hbc k r' Hr') as (r'' & Hr'' & E'). exists r''.
  split; [exact Hr'' | congruence].
Qed.

Lemma assign_fare r f : fare_fields (assign r f) = fare_fields r.
Proof. reflexivity. Qed.

Lemma apply_data_fare data : forall r, fare_fields (apply_data data r) = fare_fields r.
Proof.
  unfold apply_data. induction data as [|f data IH]; intros r; simpl; [reflexivity|].
  rewrite IH. apply assign_fare.
Qed.

Lemma fares_kept_same_rides w w' : rides w' = rides w -> fares_kept w w'.
Proof. intros E k r Hr. exists r. rewrite E. split; [exact Hr | reflexivity]. Qed.

Lemma ride_update_fares id data : respects fares_kept (ride_update id data).
Proof.
  intros w. unfold ride_update. run.
  destruct (rides w !! id) as [r|] eqn:Hr; run; [|apply fares_kept_refl].
  intros k r0 Hk. simpl. destruct (decide (id = k)) as [<-|Hne].
  - rewrite lookup_insert_eq. exists (apply_data data r). split; [reflexivity|].
    rewrite apply_data_fare. congruence.
  - rewrite lookup_insert_ne by exact Hne. exists r0. split; [exact Hk | reflexivity].
Qed.

Lemma ride_create_fares id r : respects fares_kept (ride_create id r).
Proof.
  intros w. unfold ride_create. run.
  destruct (rides w !! id) as [r0|] eqn:Hr; run; [apply fares_kept_refl|].
  intros k r1 Hk. simpl. destruct (decide (id = k)) as [<-|Hne]; [congruence|].
  rewrite lookup_insert_ne by exact Hne. exists r1. split; [exact Hk | reflexivity].
Qed.

(** Splits a handler into its primitive steps and its tests. *)
Ltac fares :=
  repeat first
    [ apply ride_update_fares
    | apply ride_create_fares
    | apply respects_modify; intros ?; apply fares_kept_same_rides; reflexivity
    | apply (respects_bind fares_kept fares_kept_trans); [| intros ?]
    | apply (respects_try_catch fares_kept fares_kept_trans); [| intros ?]
    | apply (respects_mapM fares_kept fares_kept_refl fares_kept_trans); intros ?
    | apply (respects_ret fares_kept fares_kept_refl)
    | apply (respects_mret fares_kept fares_kept_refl)
    | apply (respects_throw fares_kept fares_kept_refl)
    | apply (respects_gets fares_kept fares_kept_refl)
    | match goal with
      | |- respects _ (match ?x with _ => _ end) => destruct x
      | |- respects _ (if ?b then _ else _) => destruct b
      end ].

Lemma run_op_fares uniq valid dist op : respects fares_kept (run_op uniq valid dist op).
Proof.
  destruct op; unfold run_op.
  all: unfold post_request, get_ride, post_cancel, post_tip, post_location,
         driver_accept_ride, accept_read, accept_write, accept_catch, driver_arrived,
         driver_start_trip, driver_complete_trip, expiry_callback,
         handlePaymentSuccess, handlePaymentFailed, requireUserType, asyncHandler,
         startDriverMatching, findNearbyDrivers, georadius, getAvailableDriversForService,
         validatePromoCode, earning_create, driver_update, driver_findUnique,
         ride_findFirst_active, ride_findUnique, setRideState, clearRideState,
         updateDriverLocation, setex_location, geoadd, getDriverLocation, emit.
  all: cbv zeta.
  all: fares.
Qed.

Lemma run_ops_fares uniq valid dist ops : forall w,
  fares_kept w (run_ops uniq valid dist ops w).
Proof.
  induction ops as [|op ops IH]; intros w; simpl; [apply fares_kept_refl|].
  eapply fares_kept_trans; [apply run_op_fares | apply IH].
Qed.

(** ** Requesting a ride *)

Lemma findFirst_active_found w id k r :
  rides w !! k = Some r -> userId r = id -> is_active (status r) = true ->
  exists kr, ride_findFirst_active id w = (Done (Some kr), w).
Proof.
  intros Hr Hu Ha. unfold ride_findFirst_active, gets.
  set (l := List.filter _ _).
  assert (Hin : In (k, r) l).
  { apply filter_In. split.
    - apply list_elem_of_In, elem_of_map_to_list. exact Hr.
    - simpl. rewrite Hu, String.eqb_refl, Ha. reflexivity. }
  destruct l as [|kr l']; [destruct Hin|]. exists kr. reflexivity.
Qed.

Lemma findFirst_active_none w id :
  no_active_ride id (rides w) -> ride_findFirst_active id w = (Done None, w).
Proof.
  intros Hn. unfold ride_findFirst_active, gets.
  destruct (List.filter _ _) as [|[k r] l] eqn:E; [reflexivity|].
  assert (Hin : In (k, r) ((k, r) :: l)) by (left; reflexivity).
  rewrite <- E in Hin. apply filter_In in Hin. destruct Hin as [Hin Hp]. simpl in Hp.
  apply list_elem_of_In, elem_of_map_to_list in Hin.
  apply andb_true_iff in Hp. destruct Hp as [Hu Ha].
  apply String.eqb_eq in Hu. rewrite (Hn k r Hin Hu) in Ha. discriminate.
Qed.

Lemma findFirst_active_none_inv w id o :
  ride_findFirst_active id w = (Done o, w) -> o = None -> no_active_ride id (rides w).
Proof.
  intros H -> k r Hr Hu. destruct (is_active (status r)) eqn:Ha; [|reflexivity].
  destruct (findFirst_active_found w id k r Hr Hu Ha) as [kr Hk]. congruence.
Qed.

(** *** Fares *)

Lemma round2_nonneg x : (0 <= x)%Q -> (0 <= round2 x)%Q.
Proof.
  intros Hx. unfold round2.
  assert (H0 : (0 <= Qfloor (x * 100 + (1 # 2)))%Z).
  { change 0%Z with (Qfloor 0). apply Qfloor_resp_le. nra. }
  assert (H1 : (0 <= inject_Z (Qfloor (x * 100 + (1 # 2))))%Q).
  { change 0%Q with (inject_Z 0). rewrite <- Zle_Qle. exact H0. }
  apply Qle_shift_div_l; [reflexivity|]. nra.
Qed.

Lemma pricing_nonneg s :
  let p := default VELOX (PRICING s) in
  (0 <= p_baseFare p /\ 0 <= perMile p /\ 0 <= perMinute p /\ 0 <= minFare p
   /\ 0 <= bookingFee p)%Q.
Proof.
  unfold PRICING.
  repeat (match goal with |- context [String.eqb ?a ?b] => destruct (String.eqb a b) end);
    simpl; repeat split; discriminate.
Qed.

Lemma calculateFare_nonneg distance s :
  (0 <= distance)%Q ->
  let f := calculateFare distance (Qceiling (distance * (25 # 10) + 5)) s 1 in
  (0 <= fd_baseFare f /\ 0 <= fd_distanceFare f /\ 0 <= fd_timeFare f
   /\ 0 <= fd_totalFare f)%Q.
Proof.
  intros Hd. unfold calculateFare.
  destruct (pricing_nonneg s) as (Hb & Hm & Hn & Hf & Hk).
  set (p := default VELOX (PRICING s)) in *. cbv zeta. simpl.
  assert (Hdur : (0 <= inject_Z (Qceiling (distance * (25 # 10) + 5)))%Q).
  { apply Qle_trans with (distance * (25 # 10) + 5)%Q; [nra | apply Qle_ceiling]. }
  split; [apply round2_nonneg; exact Hb|].
  split; [apply round2_nonneg; nra|].
  split; [apply round2_nonneg; nra|].
  apply round2_nonneg. destruct (Qlt_le_dec _ _); [exact Hf | nra].
Qed.

Lemma validatePromoCode_reads code user fare now w :
  exists o, validatePromoCode code user fare now w = (Done o, w)
    /\ ((forall c p, promoCodes w !! c = Some p -> promo_sane p) -> (0 <= fare)%Q ->
        forall d, o = Some d -> (0 <= d /\ d <= fare)%Q).
Proof.
  unfold validatePromoCode. run.
  destruct (promoCodes w !! toUpperCase code) as [p|] eqn:Hp; run;
    [|eexists; split; [reflexivity | discriminate]].
  repeat (match goal with
          | |- context [if ?b then _ else _] =>
              destruct b; run; [eexists; split; [reflexivity | discriminate]|]
          end).
  eexists. split; [reflexivity|].
  intros Hsane Hf d [= <-]. destruct (Hsane _ _ Hp) as (Hv & Hpc & Hcap).
  destruct (String.eqb (promoType p) "FIXED") eqn:Ht.
  - split; [apply Q.min_glb; assumption | apply Q.le_min_r].
  - assert (Hv' : (value p <= 100)%Q).
    { apply Hpc. intros E. rewrite E in Ht. discriminate. }
    assert (Hd : (0 <= fare * (value p / 100) /\ fare * (value p / 100) <= fare)%Q).
    { assert (E : (fare * (value p / 100) == fare * value p / 100)%Q) by field.
      rewrite E. split.
      - apply Qle_shift_div_l; [reflexivity | nra].
      - apply Qle_shift_div_r; [reflexivity | nra]. }
    destruct (maxDiscount p) as [m|] eqn:Hm; [|exact Hd].
    split; [apply Q.min_glb; [apply Hd | apply (Hcap m eq_refl)]|].
    apply Qle_trans with (fare * (value p / 100))%Q; [apply Q.le_min_l | apply Hd].
Qed.

(** *** Matching *)

Lemma rides_kept_refl w : rides_kept w w.
Proof. reflexivity. Qed.

Lemma rides_kept_trans a b c : rides_kept a b -> rides_kept b c -> rides_kept a c.
Proof. unfold rides_kept. congruence. Qed.

Lemma offers_keep_rides rideId fare (ds : list (string * Q)) :
  respects rides_kept
    (mapM (fun d => emit (to_driver (fst d)) (ride_request rideId fare (snd d))) ds).
Proof.
  apply (respects_mapM rides_kept rides_kept_refl rides_kept_trans).
  intros d w. reflexivity.
Qed.

Lemma matching_rides dist rideId now w r :
  rides w !! rideId = Some r ->
  rides (snd (startDriverMatching dist rideId now w)) = rides w
  \/ rides (snd (startDriverMatching dist rideId now w)) = <[rideId := expired r]> (rides w).
Proof.
  intros Hr. unfold startDriverMatching. run. rewrite Hr. run.
  unfold findNearbyDrivers, georadius. run.
  set (nearby := take 20 _).
  destruct (getAvailableDriversForService nearby (serviceType r) w) as [o w'] eqn:Ha.
  assert (Hw : w' = w /\ exists l, o = Done l).
  { unfold getAvailableDriversForService in Ha. destruct nearby; run.
    - injection Ha as <- <-. split; [reflexivity | eexists; reflexivity].
    - injection Ha as <- <-. split; [reflexivity | eexists; reflexivity]. }
  destruct Hw as [-> [l ->]].
  destruct l as [|d l].
  - right. unfold ride_update. run. rewrite Hr. run. reflexivity.
  - left. set (ds := take 5 (d :: l)).
    match goal with
    | |- context [let (_, _) := ?c w in _] =>
        assert (Hk : rides (snd (c w)) = rides w)
          by exact (offers_keep_rides rideId (driverEarnings r) ds w);
        destruct (c w) as [[u|e] w'']; simpl in *; exact Hk
    end.
Qed.

Lemma promo_discount_reads id q distance now w :
  exists discount,
    match q_promoCode q with
    | Some promoCode =>
        if String.eqb promoCode "" then ret 0%Q else
        promo ← validatePromoCode promoCode id (quoted_fare q distance) now;
        ret (default 0%Q promo)
    | None => ret 0%Q
    end w = (Done discount, w)
    /\ ((forall c p, promoCodes w !! c = Some p -> promo_sane p) ->
        (0 <= distance)%Q ->
        (0 <= discount /\ discount <= quoted_fare q distance)%Q).
Proof.
  assert (Hq : (0 <= distance)%Q -> (0 <= quoted_fare q distance)%Q).
  { intros Hd. apply (calculateFare_nonneg distance (q_serviceType q) Hd). }
  destruct (q_promoCode q) as [c|].
  - destruct (String.eqb c "").
    + exists 0%Q. split; [reflexivity|]. intros _ Hd. split; [apply Qle_refl | auto].
    + destruct (validatePromoCode_reads c id (quoted_fare q distance) now w)
        as (o & Ho & Hb).
      exists (default 0%Q o). unfold mbind, M_bind, bind. rewrite Ho. split; [reflexivity|].
      intros Hs Hd. destruct o as [d|]; simpl.
      * apply (Hb Hs (Hq Hd) d eq_refl).
      * split; [apply Qle_refl | auto].
  - exists 0%Q. split; [reflexivity|]. intros _ Hd. split; [apply Qle_refl | auto].
Qed.

Lemma post_request_taken dist id q distance newId now w r :
  request_valid q = true -> no_active_ride id (rides w) -> rides w !! newId = Some r ->
  post_request dist id "user" q distance newId now w = (Done (errorHandler P2002), w).
Proof.
  intros Hv Hn Hf.
  destruct (promo_discount_reads id q distance now w) as (discount & Hrun & _).
  unfold post_request, requireUserType, asyncHandler, try_catch.
  rewrite String.eqb_refl, Hv. cbn [negb]. cbv beta iota.
  unfold mbind at 1, M_bind at 1, bind at 1.
  rewrite (findFirst_active_none w id Hn). cbv beta iota.
  unfold mbind at 1, M_bind at 1, bind at 1.
  fold (quoted_fare q distance). rewrite Hrun. cbv beta iota.
  unfold ride_create. run. rewrite Hf. reflexivity.
Qed.

Lemma post_request_created dist id q distance newId now w :
  request_valid q = true -> no_active_ride id (rides w) -> rides w !! newId = None ->
  exists discount w',
    post_request dist id "user" q distance newId now w =
      (Done (mkResponse 201 (created_ newId (requested_ride id q distance discount))), w')
    /\ (rides w' = <[newId := requested_ride id q distance discount]> (rides w)
        \/ rides w' = <[newId := expired (requested_ride id q distance discount)]> (rides w))
    /\ ((forall c p, promoCodes w !! c = Some p -> promo_sane p) -> (0 <= distance)%Q ->
        (0 <= discount /\ discount <= quoted_fare q distance)%Q).
Proof.
  intros Hv Hn Hf.
  pose proof (promo_discount_reads id q distance now w) as Hdisc.
  destruct Hdisc as (discount & Hrun & Hbound).
  exists discount.
  unfold post_request, requireUserType, asyncHandler, try_catch.
  rewrite String.eqb_refl, Hv. cbn [negb]. cbv beta iota.
  unfold mbind at 1, M_bind at 1, bind at 1.
  rewrite (findFirst_active_none w id Hn). cbv beta iota.
  unfold mbind at 1, M_bind at 1, bind at 1.
  fold (quoted_fare q distance). rewrite Hrun. cbv beta iota.
  unfold ride_create, setRideState. run. rewrite Hf. run.
  fold (requested_ride id q distance discount).
  set (w1 := set_redis _ _).
  assert (Hr1 : rides w1 !! newId = Some (requested_ride id q distance discount))
    by (simpl; apply lookup_insert_eq).
  destruct (scheduled q) eqn:Hsch.
  - eexists. split; [unfold requested_ride; rewrite Hsch; reflexivity|].
    split; [left; unfold requested_ride; rewrite Hsch; reflexivity | exact Hbound].
  - pose proof (matching_rides dist newId now w1 _ Hr1) as Hm.
    destruct (startDriverMatching dist newId now w1) as [[u|e] w2]; simpl in *.
    + eexists. split; [unfold requested_ride; rewrite Hsch; reflexivity|].
      split; [|exact Hbound].
      destruct Hm as [-> | ->];
        [left; unfold requested_ride; rewrite Hsch; reflexivity|].
      right. apply insert_insert_eq.
    + eexists. split; [unfold requested_ride; rewrite Hsch; reflexivity|].
      split; [|exact Hbound].
      destruct Hm as [-> | ->];
        [left; unfold requested_ride; rewrite Hsch; reflexivity|].
      right. apply insert_insert_eq.
Qed.

Lemma post_request_rejected dist id q distance newId now w :
  (exists k r, rides w !! k = Some r /\ userId r = id /\ is_active (status r) = true) ->
  exists b,
    post_request dist id "user" q distance newId now w = (Done (mkResponse 400 b), w)
    /\ (request_valid q = true -> b = error_ "You already have an active ride").
Proof.
  intros (k & r & Hr & Hu & Ha).
  destruct (findFirst_active_found w id k r Hr Hu Ha) as [kr Hk].
  unfold post_request, requireUserType, asyncHandler, try_catch.
  rewrite String.eqb_refl. destruct (request_valid q); cbn [negb]; cbv beta iota.
  - unfold mbind at 1, M_bind at 1, bind at 1. rewrite Hk.
    eexists. split; reflexivity.
  - eexists. split; [reflexivity | discriminate].
Qed.

Lemma post_request_rides dist id type q distance newId now w :
  rides (snd (post_request dist id type q distance newId now w)) = rides w
  \/ (no_active_ride id (rides w) /\ rides w !! newId = None
      /\ exists r0, userId r0 = id
           /\ rides (snd (post_request dist id type q distance newId now w))
              = <[newId := r0]> (rides w)).
Proof.
  destruct (String.eqb type "user") eqn:Ht.
  2:{ left. unfold post_request, requireUserType. rewrite Ht. reflexivity. }
  apply String.eqb_eq in Ht. subst type.
  destruct (request_valid q) eqn:Hv.
  2:{ left. unfold post_request, requireUserType, asyncHandler, try_catch.
      rewrite String.eqb_refl, Hv. reflexivity. }
  destruct (ride_findFirst_active id w) as [o w0] eqn:Hff.
  assert (Hw0 : w0 = w /\ exists a, o = Done a).
  { unfold ride_findFirst_active, gets in Hff. injection Hff as <- <-.
    split; [reflexivity | eexists; reflexivity]. }
  destruct Hw0 as [-> [[kr|] ->]].
  - left. unfold post_request, requireUserType, asyncHandler, try_catch.
    rewrite String.eqb_refl, Hv. cbn [negb]. cbv beta iota.
    unfold mbind at 1, M_bind at 1, bind at 1. rewrite Hff. reflexivity.
  - pose proof (findFirst_active_none_inv w id None Hff eq_refl) as Hn.
    destruct (rides w !! newId) as [r|] eqn:Hf.
    + left. rewrite (post_request_taken dist id q distance newId now w r Hv Hn Hf).
      reflexivity.
    + right. split; [exact Hn|]. split; [reflexivity|].
      destruct (post_request_created dist id q distance newId now w Hv Hn Hf)
        as (discount & w' & -> & Hr & _).
      simpl. destruct Hr as [-> | ->]; eexists; (split; [|reflexivity]); reflexivity.
Qed.

(** What the ride request does, taken on its own: a rider who has a ride
    in an active status and asks for another is answered 400 and the world
    stays as it was; and a store in which every rider has at most one
    active ride is still such a store after a ride request that ran from
    its test to its insert with no other handler in between. *)
Lemma request_keeps_one_active_ride dist id type q distance newId now w :
  ((exists k r, rides w !! k = Some r /\ userId r = id /\ is_active (status r) = true) ->
   exists b,
     post_request dist id "user" q distance newId now w = (Done (mkResponse 400 b), w)
     /\ (request_valid q = true -> b = error_ "You already have an active ride"))
  /\ (one_active_ride (rides w) ->
      one_active_ride (rides (snd (post_request dist id type q distance newId now w)))).
Proof.
  split; [apply post_request_rejected|].
  intros Hinv.
  destruct (post_request_rides dist id type q distance newId now w)
    as [-> | (Hn & Hf & r0 & Hu & ->)]; [exact Hinv|].
  intros k1 k2 r1 r2 H1 H2 Hsame A1 A2.
  destruct (decide (newId = k1)) as [<-|N1]; destruct (decide (newId = k2)) as [<-|N2].
  - reflexivity.
  - rewrite lookup_insert_eq in H1. injection H1 as <-.
    rewrite lookup_insert_ne in H2 by exact N2.
    rewrite (Hn k2 r2 H2) in A2; [discriminate | congruence].
  - rewrite lookup_insert_eq in H2. injection H2 as <-.
    rewrite lookup_insert_ne in H1 by exact N1.
    rewrite (Hn k1 r1 H1) in A1; [discriminate | congruence].
  - rewrite lookup_insert_ne in H1 by exact N1.
    rewrite lookup_insert_ne in H2 by exact N2.
    exact (Hinv k1 k2 r1 r2 H1 H2 Hsame A1 A2).
Qed.

Lemma single_ride_one_active k r : one_active_ride {[ k := r ]}.
Proof.
  intros k1 k2 r1 r2 H1 H2 _ _ _.
  apply lookup_singleton_Some in H1, H2. destruct H1 as [<- _], H2 as [<- _]. reflexivity.
Qed.

(** C6, on the code.  The store does not keep the invariant.  The
    'driver:arrived' handler tests no status: sent for a ride [a] (a
    CANCELLED one included) it makes [a] ARRIVED.  When the rider of [a]
    has another ride [b] in an active status, which the request route
    allowed because [a] was not active then, the rider is left with two
    active rides. *)
Theorem arrival_revives_ride_beside_active_one w id a b ra rb now :
  rides w !! a = Some ra -> rides w !! b = Some rb -> a <> b ->
  userId ra = userId rb -> is_active (status rb) = true ->
  let w' := snd (driver_arrived id "driver" a now w) in
  fst (driver_arrived id "driver" a now w) = Done tt
  /\ rides w' !! a = Some (arrived_at now ra)
  /\ rides w' !! b = Some rb
  /\ status (arrived_at now ra) = ARRIVED
  /\ ~ one_active_ride (rides w').
Proof.
  intros Ha Hb Hne Hu Hact w'. subst w'.
  assert (E : driver_arrived id "driver" a now w =
              (Done tt,
               set_outbox (fun o => o ++ [(to_user (userId ra), ride_driver_arrived a)])
                 (set_rides (insert a (arrived_at now ra)) w))).
  { unfold driver_arrived, ride_update. run. rewrite Ha. run. reflexivity. }
  rewrite E. clear E. unfold set_outbox, set_rides. cbn [fst snd rides].
  assert (Ha' : <[a := arrived_at now ra]> (rides w) !! a = Some (arrived_at now ra))
    by apply lookup_insert_eq.
  assert (Hb' : <[a := arrived_at now ra]> (rides w) !! b = Some rb)
    by (rewrite lookup_insert_ne by exact Hne; exact Hb).
  split; [reflexivity|]. split; [exact Ha'|]. split; [exact Hb'|].
  split; [reflexivity|].
  intros Hinv. apply Hne.
  exact (Hinv a b (arrived_at now ra) rb Ha' Hb' Hu eq_refl Hact).
Qed.

(** Rider [u1]'s ride [r1] was cancelled; [u1] then booked [r2], which
    waits for a driver, and every rider has at most one active ride.
    Driver [d1] now sends 'driver:arrived' for [r1]. *)
Lemma arrival_revives_ride_beside_active_one_witness :
  let w' := snd (driver_arrived "d1" "driver" "r1" 9000 rebooked_world) in
  one_active_ride (rides rebooked_world)
  /\ status <$> rides rebooked_world !! "r1" = Some CANCELLED
  /\ status <$> rides rebooked_world !! "r2" = Some REQUESTED
  /\ status <$> rides w' !! "r1" = Some ARRIVED
  /\ status <$> rides w' !! "r2" = Some REQUESTED
  /\ ~ one_active_ride (rides w').
Proof.
  assert (Hne : "r1" <> "r2") by discriminate.
  assert (H1 : rides rebooked_world !! "r1" = Some (sample_ride CANCELLED (Some "d1")))
    by (vm_compute; reflexivity).
  assert (H2 : rides rebooked_world !! "r2" = Some (requested_ride "u1" plain_request 0 0))
    by (vm_compute; reflexivity).
  destruct (arrival_revives_ride_beside_active_one rebooked_world "d1" "r1" "r2"
              (sample_ride CANCELLED (Some "d1")) (requested_ride "u1" plain_request 0 0)
              9000 H1 H2 Hne eq_refl eq_refl) as (_ & Ha & Hb & Hs & Hbroken).
  cbv zeta. split.
  - apply (proj2 (request_keeps_one_active_ride grid_miles "u1" "user" plain_request 0
                    "r2" 5000 _)).
    apply single_ride_one_active.
  - rewrite H1, H2, Ha, Hb. repeat split. exact Hbroken.
Defined.

(** C7, as the code has it.  A ride created for a distance that is not
    negative, when every promo row is sane (no negative value or cap, no
    percentage above 100), stores base, distance and time fares, a promo
    discount and a total that are not negative.  Whatever is run afterwards
    (requests, reads, cancellations, tips, the driver events, the expiry
    timer, payment webhooks, location updates), the ride is still there
    with the same base, distance, time, surge, promo, total, platform fee
    and driver earnings. *)
Theorem fares_nonnegative_then_fixed uniq valid dist id q distance newId now w :
  request_valid q = true -> no_active_ride id (rides w) -> rides w !! newId = None ->
  (0 <= distance)%Q ->
  (forall c p, promoCodes w !! c = Some p -> promo_sane p) ->
  exists ride w',
    post_request dist id "user" q distance newId now w =
      (Done (mkResponse 201 (created_ newId ride)), w')
    /\ (0 <= baseFare ride /\ 0 <= distanceFare ride /\ 0 <= timeFare ride
        /\ 0 <= promoDiscount ride /\ 0 <= totalFare ride)%Q
    /\ forall ops, exists r',
         rides (run_ops uniq valid dist ops w') !! newId = Some r'
         /\ fare_fields r' = fare_fields ride.
Proof.
  intros Hv Hn Hf Hd Hs.
  destruct (post_request_created dist id q distance newId now w Hv Hn Hf)
    as (discount & w' & Hrun & Hr & Hb).
  destruct (Hb Hs Hd) as [Hd0 Hd1].
  exists (requested_ride id q distance discount), w'. split; [exact Hrun|]. split.
  - destruct (calculateFare_nonneg distance (q_serviceType q) Hd) as (H1 & H2 & H3 & H4).
    unfold quoted_fare in Hd1. unfold requested_ride.
    cbn [baseFare distanceFare timeFare promoDiscount totalFare].
    split; [exact H1|]. split; [exact H2|]. split; [exact H3|]. split; [exact Hd0|].
    revert Hd1. generalize (fd_totalFare (calculateFare distance
      (Qceiling (distance * (25 # 10) + 5)) (q_serviceType q) 1)).
    intros total Hd1. lra.
  - intros ops.
    assert (Hw' : exists r0, rides w' !! newId = Some r0
                    /\ fare_fields r0 = fare_fields (requested_ride id q distance discount)).
    { destruct Hr as [-> | ->]; rewrite lookup_insert_eq; eexists; split; reflexivity. }
    destruct Hw' as (r0 & Hr0 & E0).
    destruct (run_ops_fares uniq valid dist ops w' newId r0 Hr0) as (r' & Hr' & E').
    exists r'. split; [exact Hr' | congruence].
Qed.

Lemma fares_nonnegative_then_fixed_witness :
  exists ride w',
    post_request grid_miles "u2" "user" (short_request "velox25") 0 "r2" 5000
                 (with_promos {[ "VELOX25" := promo_25 ]} (sample_world REQUESTED None)) =
      (Done (mkResponse 201 (created_ "r2" ride)), w')
    /\ (0 <= baseFare ride /\ 0 <= distanceFare ride /\ 0 <= timeFare ride
        /\ 0 <= promoDiscount ride /\ 0 <= totalFare ride)%Q
    /\ forall ops, exists r',
         rides (run_ops false redis_geo_valid grid_miles ops w') !! "r2" = Some r'
         /\ fare_fields r' = fare_fields ride.
Proof.
  apply (fares_nonnegative_then_fixed false redis_geo_valid grid_miles "u2"
           (short_request "velox25") 0 "r2" 5000
           (with_promos {[ "VELOX25" := promo_25 ]} (sample_world REQUESTED None))).
  - reflexivity.
  - intros k r Hr Hu. simpl in Hr. apply lookup_singleton_Some in Hr.
    destruct Hr as [_ <-]. discriminate Hu.
  - reflexivity.
  - discriminate.
  - intros c p Hp. simpl in Hp. apply lookup_singleton_Some in Hp. destruct Hp as [_ <-].
    split; [discriminate|]. split; [intros _; discriminate|].
    intros m [= <-]. discriminate.
Defined.

(** C7 as stated fails: with the promo of 150 percent the ride is created
    with a promo discount above its fare and a total below zero. *)
Lemma promo_above_fare_negative_total :
  exists ride,
    fst (post_request grid_miles "u2" "user" (short_request "MEGA") 0 "r2" 5000
           (with_promos {[ "MEGA" := promo_150 ]} (sample_world REQUESTED None))) =
      Done (mkResponse 201 (created_ "r2" ride))
    /\ (promoDiscount ride == 105 # 10)%Q
    /\ (totalFare ride == - (35 # 10))%Q
    /\ (totalFare ride < 0)%Q.
Proof.
  eexists. split; [vm_compute; reflexivity|].
  split; [vm_compute; reflexivity|]. split; [vm_compute; reflexivity|].
  vm_compute. reflexivity.
Qed.

(** ** The geo index *)

Lemma insert_asc_In x y l : In x (insert_asc y l) <-> x = y \/ In x l.
Proof.
  induction l as [|z l IH]; simpl.
  - split; [intros [<- | []]; left; reflexivity | intros [-> | []]; left; reflexivity].
  - destruct (Qle_bool (snd y) (snd z)); simpl.
    + split; [intros [<- | H]; [left; reflexivity | right; exact H]
             | intros [-> | H]; [left; reflexivity | right; exact H]].
    + rewrite IH. tauto.
Qed.

Lemma sort_asc_In x l : In x (sort_asc l) <-> In x l.
Proof.
  induction l as [|z l IH]; simpl; [tauto|].
  rewrite insert_asc_In, IH. split; intros [H | H]; auto.
Qed.

Lemma length_insert_asc y l : length (insert_asc y l) = S (length l).
Proof.
  induction l as [|z l IH]; simpl; [reflexivity|].
  destruct (Qle_bool (snd y) (snd z)); simpl; [reflexivity | rewrite IH; reflexivity].
Qed.

Lemma length_sort_asc l : length (sort_asc l) = length l.
Proof.
  induction l as [|z l IH]; simpl; [reflexivity|].
  rewrite length_insert_asc, IH. reflexivity.
Qed.

Lemma length_omap_le {A B} (f : A -> option B) l : (length (omap f l) <= length l)%nat.
Proof.
  induction l as [|a l IH]; csimpl; [lia|]. destruct (f a); simpl; lia.
Qed.

Lemma update_location_accepted valid d lat lng t0 w :
  valid lng lat = true ->
  updateDriverLocation valid d lat lng t0 w =
    (Done tt,
     set_redis (fun r =>
       mkRedis (<[d := (mkLocation lat lng t0, (t0 + 300 * 1000)%Z)]> (driver_location r))
               (<[d := (lng, lat)]> (drivers_online r)) (ride_state r)) w).
Proof.
  intros Hv. unfold updateDriverLocation, setex_location, geoadd. run. rewrite Hv. run.
  reflexivity.
Qed.

(** C4, on the code.  A driver sends one position and nothing removes the
    driver.  From 300 seconds on the location key has expired, and the
    proximity query at that very point still returns the driver (at any
    radius, once the limit does not cut the answer short): the query reads
    the geo set, which no expiry applies to, and takes no instant at all. *)
Theorem stale_driver_still_returned valid dist w d lat lng t0 t radius limit :
  valid lng lat = true ->
  (dist (lng, lat) (lng, lat) == 0)%Q ->
  (0 <= radius)%Q ->
  (t0 + 300 * 1000 <= t)%Z ->
  (size (drivers_online (redis w)) < limit)%nat ->
  let w1 := snd (updateDriverLocation valid d lat lng t0 w) in
  fst (updateDriverLocation valid d lat lng t0 w) = Done tt
  /\ getDriverLocation d t w1 = (Done None, w1)
  /\ exists found,
       findNearbyDrivers dist lat lng radius limit w1 = (Done found, w1)
       /\ In d (map fst found).
Proof.
  intros Hv Hd Hr Ht Hl w1. subst w1. rewrite (update_location_accepted valid d lat lng t0 w Hv).
  simpl. split; [reflexivity|]. split.
  - unfold getDriverLocation, gets. simpl. rewrite lookup_insert_eq. simpl.
    replace (t <? t0 + 300 * 1000)%Z with false by (symmetry; apply Z.ltb_ge; exact Ht).
    reflexivity.
  - unfold findNearbyDrivers, georadius, gets. simpl. eexists. split; [reflexivity|].
    set (g := <[d := (lng, lat)]> (drivers_online (redis w))).
    rewrite take_ge.
    + apply in_map_iff. exists (d, dist (lng, lat) (lng, lat)). split; [reflexivity|].
      apply sort_asc_In, list_elem_of_In, list_elem_of_omap.
      exists (d, (lng, lat)). split.
      * apply elem_of_map_to_list. apply lookup_insert_eq.
      * unfold within. simpl.
        replace (Qle_bool (dist (lng, lat) (lng, lat)) radius) with true; [reflexivity|].
        symmetry. apply Qle_bool_iff. rewrite Hd. exact Hr.
    + rewrite length_sort_asc.
      etransitivity; [apply length_omap_le|]. rewrite length_map_to_list.
      unfold g. rewrite map_size_insert.
      destruct (drivers_online (redis w) !! d); simpl; lia.
Qed.

Lemma stale_driver_still_returned_witness :
  let w := sample_world REQUESTED None in
  let w1 := snd (updateDriverLocation redis_geo_valid "d1" (407128 # 10000)
                   (- (740060 # 10000)) 0 w) in
  fst (updateDriverLocation redis_geo_valid "d1" (407128 # 10000)
         (- (740060 # 10000)) 0 w) = Done tt
  /\ getDriverLocation "d1" 301000 w1 = (Done None, w1)
  /\ exists found,
       findNearbyDrivers grid_miles (407128 # 10000) (- (740060 # 10000)) 1 20 w1
         = (Done found, w1)
       /\ In "d1" (map fst found).
Proof.
  apply (stale_driver_still_returned redis_geo_valid grid_miles
           (sample_world REQUESTED None) "d1" (407128 # 10000) (- (740060 # 10000))
           0 301000 1 20).
  - reflexivity.
  - reflexivity.
  - discriminate.
  - discriminate.
  - vm_compute. lia.
Defined.

(** ** Position updates *)




(** The tip is the one amount of a ride that an operation rewrites. *)
Remark tip_is_rewritten :
  let w := snd (post_tip "u1" "user" "r1" (5 # 2) (sample_world COMPLETED (Some "d1"))) in
  tip <$> rides w !! "r1" = Some (5 # 2)
  /\ totalFare <$> rides w !! "r1" = Some 7%Q.
Proof. vm_compute. split; reflexivity. Qed.

(** * Further properties of the sources *)

(** ** Redis keys and the geo set *)

(** X1.  A position written at [t0] reads back unchanged for the next 300
    seconds and as absent from then on, whether or not the geo index took
    the pair. *)
Theorem location_reads_back_until_expiry valid d lat lng t0 t w :
  let w1 := snd (updateDriverLocation valid d lat lng t0 w) in
  getDriverLocation d t w1 =
    (Done (if (t <? t0 + 300 * 1000)%Z then Some (mkLocation lat lng t0) else None), w1).
Proof.
  unfold updateDriverLocation, setex_location, geoadd, getDriverLocation. run.
  destruct (valid lng lat); run; rewrite lookup_insert_eq; reflexivity.
Qed.

Lemma redis_eta c : mkRedis (driver_location c) (drivers_online c) (ride_state c) = c.
Proof. destruct c; reflexivity. Qed.

Lemma world_eta w :
  mkWorld (rides w) (drivers w) (earnings w) (promoCodes w) (promoUsages w) (redis w)
          (outbox w) (timers w) = w.
Proof. destruct w; reflexivity. Qed.

Lemma remove_absent d w :
  driver_location (redis w) !! d = None -> drivers_online (redis w) !! d = None ->
  removeDriverFromPool d w = (Done tt, w).
Proof.
  intros Hl Hg. unfold removeDriverFromPool, modify, set_redis.
  rewrite (delete_id _ _ Hl), (delete_id _ _ Hg), redis_eta, world_eta. reflexivity.
Qed.

(** X2.  Removing a driver that has neither a location key nor an entry in
    the geo set is not an error and changes nothing. *)
Theorem remove_absent_driver_is_noop d w :
  driver_location (redis w) !! d = None -> drivers_online (redis w) !! d = None ->
  removeDriverFromPool d w = (Done tt, w).
Proof. exact (remove_absent d w). Qed.

Lemma remove_absent_driver_is_noop_witness :
  removeDriverFromPool "d9" (sample_world REQUESTED None) =
    (Done tt, sample_world REQUESTED None).
Proof.
  exact (remove_absent_driver_is_noop "d9" (sample_world REQUESTED None) eq_refl eq_refl).
Defined.

Lemma findNearbyDrivers_nearby dist lat lng radius limit w :
  findNearbyDrivers dist lat lng radius limit w = (Done (nearby dist lat lng radius limit w), w).
Proof. reflexivity. Qed.

Lemma nearby_member dist lat lng radius limit w e :
  In e (nearby dist lat lng radius limit w) ->
  exists pos, drivers_online (redis w) !! fst e = Some pos
              /\ snd e = dist (lng, lat) pos /\ (snd e <= radius)%Q.
Proof.
  unfold nearby. intros Hin.
  apply list_elem_of_In in Hin. apply (fun H => elem_of_sublist _ _ _ H (sublist_take _ _)) in Hin.
  apply list_elem_of_In, sort_asc_In, list_elem_of_In, list_elem_of_omap in Hin.
  destruct Hin as ([k pos] & Hk & Hw). apply elem_of_map_to_list in Hk.
  unfold within in Hw. simpl in Hw.
  destruct (Qle_bool (dist (lng, lat) pos) radius) eqn:Hle; [|discriminate].
  injection Hw as <-. exists pos. simpl. split; [exact Hk|]. split; [reflexivity|].
  apply Qle_bool_iff. exact Hle.
Qed.

(** X3.  Once a driver is removed, the location key reads as absent at
    every instant, no proximity query returns the driver, and removing
    again changes nothing. *)
Theorem removed_driver_is_gone d w :
  let w1 := snd (removeDriverFromPool d w) in
  removeDriverFromPool d w = (Done tt, w1)
  /\ removeDriverFromPool d w1 = (Done tt, w1)
  /\ (forall t, getDriverLocation d t w1 = (Done None, w1))
  /\ (forall dist lat lng radius limit,
        ~ In d (map fst (nearby dist lat lng radius limit w1))).
Proof.
  intros w1. split; [reflexivity|].
  assert (Hl : driver_location (redis w1) !! d = None) by apply lookup_delete_eq.
  assert (Hg : drivers_online (redis w1) !! d = None) by apply lookup_delete_eq.
  split; [exact (remove_absent d w1 Hl Hg)|]. split.
  - intros t. unfold getDriverLocation, gets. rewrite Hl. reflexivity.
  - intros dist lat lng radius limit Hin. apply in_map_iff in Hin.
    destruct Hin as (e & <- & He).
    destruct (nearby_member dist lat lng radius limit w1 e He) as (pos & Hp & _).
    congruence.
Qed.

Lemma insert_asc_sorted x l :
  StronglySorted by_distance l -> StronglySorted by_distance (insert_asc x l).
Proof.
  induction 1 as [|y l Hs IH Hy]; simpl.
  - constructor; constructor.
  - destruct (Qle_bool (snd x) (snd y)) eqn:Hle.
    + apply Qle_bool_iff in Hle. constructor; [constructor; assumption|].
      constructor; [exact Hle|].
      apply Forall_forall. intros z Hz. unfold by_distance.
      apply Qle_trans with (snd y); [exact Hle|].
      exact (proj1 (Forall_forall _ _) Hy z Hz).
    + assert (Hyx : (snd y <= snd x)%Q).
      { destruct (Qlt_le_dec (snd y) (snd x)) as [H|H]; [apply Qlt_le_weak; exact H|].
        apply Qle_bool_iff in H. congruence. }
      constructor; [exact IH|].
      apply Forall_forall. intros z Hz. apply list_elem_of_In, insert_asc_In in Hz.
      destruct Hz as [-> | Hz]; [exact Hyx|].
      apply list_elem_of_In in Hz. exact (proj1 (Forall_forall _ _) Hy z Hz).
Qed.

Lemma sort_asc_sorted l : StronglySorted by_distance (sort_asc l).
Proof.
  induction l as [|x l IH]; simpl; [constructor | apply insert_asc_sorted; exact IH].
Qed.

Lemma take_sorted n : forall l,
  StronglySorted by_distance l -> StronglySorted by_distance (take n l).
Proof.
  induction n as [|n IH]; intros l Hs; [constructor|].
  destruct Hs as [|x l Hs Hx]; simpl; [constructor|].
  constructor; [apply IH; exact Hs|].
  apply Forall_forall. intros z Hz. apply (proj1 (Forall_forall _ _) Hx).
  exact (elem_of_sublist _ _ _ Hz (sublist_take _ _)).
Qed.

(** X4.  A proximity query answers with at most [limit] entries, nearest
    first; each entry is a member of the geo set, carries the distance from
    the query point to the member's stored position, and lies within the
    radius. *)
Theorem nearby_is_bounded_sorted_within dist lat lng radius limit w :
  let found := nearby dist lat lng radius limit w in
  findNearbyDrivers dist lat lng radius limit w = (Done found, w)
  /\ (length found <= limit)%nat
  /\ StronglySorted by_distance found
  /\ Forall (fun e => exists pos, drivers_online (redis w) !! fst e = Some pos
                                  /\ snd e = dist (lng, lat) pos /\ (snd e <= radius)%Q)
            found.
Proof.
  intros found. split; [reflexivity|]. split; [|split].
  - unfold found, nearby. rewrite length_take. lia.
  - apply take_sorted, sort_asc_sorted.
  - apply Forall_forall. intros e He. apply list_elem_of_In in He.
    exact (nearby_member dist lat lng radius limit w e He).
Qed.

(** X5.  The live state of a ride reads back for 3600 seconds after it is
    set and as absent from then on; once cleared it is absent at every
    instant. *)
Theorem ride_state_reads_back_until_cleared rideId state t0 t w :
  let w1 := snd (setRideState rideId state t0 w) in
  getRideState rideId t w1 =
    (Done (if (t <? t0 + 3600 * 1000)%Z then Some state else None), w1)
  /\ getRideState rideId t (snd (clearRideState rideId w1)) =
       (Done None, snd (clearRideState rideId w1)).
Proof.
  unfold setRideState, clearRideState, getRideState. run.
  rewrite lookup_insert_eq, lookup_delete_eq. split; reflexivity.
Qed.

(** X6.  Two positions sent by one driver: the second replaces the first in
    the location key and in the geo set, and the geo set holds the driver
    once (it has the size it had after the first). *)
Theorem last_position_wins valid d lat1 lng1 t1 lat2 lng2 t2 w :
  valid lng1 lat1 = true -> valid lng2 lat2 = true ->
  let w1 := snd (updateDriverLocation valid d lat1 lng1 t1 w) in
  let w2 := snd (updateDriverLocation valid d lat2 lng2 t2 w1) in
  w2 = snd (updateDriverLocation valid d lat2 lng2 t2 w)
  /\ drivers_online (redis w2) !! d = Some (lng2, lat2)
  /\ driver_location (redis w2) !! d = Some (mkLocation lat2 lng2 t2, (t2 + 300 * 1000)%Z)
  /\ size (drivers_online (redis w2)) = size (drivers_online (redis w1)).
Proof.
  intros H1 H2 w1 w2. subst w1 w2.
  rewrite (update_location_accepted valid d lat1 lng1 t1 w H1). cbn [snd].
  rewrite (update_location_accepted valid d lat2 lng2 t2 w H2).
  rewrite (update_location_accepted valid d lat2 lng2 t2 _ H2).
  unfold set_redis. simpl. rewrite !insert_insert_eq. split; [reflexivity|].
  split; [apply lookup_insert_eq|]. split; [apply lookup_insert_eq|].
  rewrite !map_size_insert. reflexivity.
Qed.

Lemma last_position_wins_witness :
  let w1 := snd (updateDriverLocation redis_geo_valid "d1" 40 (-74) 0
                   (sample_world REQUESTED None)) in
  let w2 := snd (updateDriverLocation redis_geo_valid "d1" 41 (-73) 1000 w1) in
  w2 = snd (updateDriverLocation redis_geo_valid "d1" 41 (-73) 1000
              (sample_world REQUESTED None))
  /\ drivers_online (redis w2) !! "d1" = Some ((-73)%Q, 41%Q)
  /\ driver_location (redis w2) !! "d1" = Some (mkLocation 41 (-73) 1000, (1000 + 300 * 1000)%Z)
  /\ size (drivers_online (redis w2)) = size (drivers_online (redis w1)).
Proof.
  exact (last_position_wins redis_geo_valid "d1" 40 (-74) 0 41 (-73) 1000
           (sample_world REQUESTED None) eq_refl eq_refl).
Defined.

(** ** Pricing *)

Lemma round2_mono x y : (x <= y)%Q -> (round2 x <= round2 y)%Q.
Proof.
  intros H. unfold round2.
  assert (Hf : (Qfloor (x * 100 + (1 # 2)) <= Qfloor (y * 100 + (1 # 2)))%Z)
    by (apply Qfloor_resp_le; lra).
  rewrite Zle_Qle in Hf. unfold Qdiv. apply Qmult_le_compat_r; [exact Hf | discriminate].
Qed.

Lemma minFare_is_rounded s :
  (round2 (minFare (default VELOX (PRICING s))) == minFare (default VELOX (PRICING s)))%Q.
Proof.
  unfold PRICING.
  repeat (match goal with |- context [String.eqb ?a ?b] => destruct (String.eqb a b) end);
    reflexivity.
Qed.

(** X7.  For every service type that is not a name inherited from
    [Object.prototype] (the four priced types, and every unknown type, which
    is priced as VELOX), and every distance, duration and surge multiplier
    (negative ones included) small enough for the source's floating-point
    sums not to overflow, the total [calculateFare] quotes is at least the
    minimum fare of the pricing it applied. *)
Theorem quoted_total_at_least_minimum distance duration s surge :
  inherited_name s = false ->
  (Qabs distance <= 1000000)%Q -> (Z.abs duration <= 1000000)%Z -> (Qabs surge <= 1000)%Q ->
  (minFare (default VELOX (PRICING s))
   <= fd_totalFare (calculateFare distance duration s surge))%Q.
Proof.
  intros _ _ _ _.
  unfold calculateFare. cbn [fd_totalFare]. rewrite <- (minFare_is_rounded s) at 1.
  apply round2_mono. destruct (Qlt_le_dec _ _) as [H|H]; [apply Qle_refl | exact H].
Qed.

(** A ride of 0.38 miles and 12 minutes falls below the VELOX minimum of 7;
    a class the table does not know is priced as VELOX. *)
Lemma quoted_total_at_least_minimum_witness :
  (7 <= fd_totalFare (calculateFare (38 # 100) 12 "VELOX" 1))%Q
  /\ (7 <= fd_totalFare (calculateFare (38 # 100) 12 "VELOX_GOLD" (-1)))%Q.
Proof.
  split.
  - apply (quoted_total_at_least_minimum (38 # 100) 12 "VELOX" 1);
      [reflexivity | discriminate | discriminate | discriminate].
  - apply (quoted_total_at_least_minimum (38 # 100) 12 "VELOX_GOLD" (-1));
      [reflexivity | discriminate | discriminate | discriminate].
Defined.

Ltac surge_cases :=
  repeat match goal with
         | |- context [Qle_bool ?a ?b] =>
             let H := fresh "H" in
             destruct (Qle_bool a b) eqn:H;
             [apply Qle_bool_iff in H
             |assert (~ (a <= b)%Q) by (intros ?Hc; apply Qle_bool_iff in Hc; congruence);
              clear H]
         end.

Lemma surge_in_range lat lng r n :
  (1 <= calculateSurge lat lng r n /\ calculateSurge lat lng r n <= 2)%Q.
Proof.
  unfold calculateSurge. destruct (Qeq_bool n 0); [split; discriminate|].
  cbv zeta. surge_cases; split; discriminate.
Qed.

(** X9.  The surge multiplier lies between 1 and 2 for every pair of
    counts (no drivers, negative and fractional counts included); and for
    a positive number of drivers it does not decrease when the number of
    requests grows. *)
Theorem surge_bounded_and_monotone lat lng r1 r2 n :
  (1 <= calculateSurge lat lng r1 n /\ calculateSurge lat lng r1 n <= 2)%Q
  /\ ((0 < n)%Q -> (r1 <= r2)%Q ->
      (calculateSurge lat lng r1 n <= calculateSurge lat lng r2 n)%Q).
Proof.
  split; [apply surge_in_range|]. intros Hn Hr.
  unfold calculateSurge.
  assert (Hz : Qeq_bool n 0 = false).
  { destruct (Qeq_bool n 0) eqn:E; [|reflexivity]. apply Qeq_bool_iff in E. lra. }
  rewrite Hz. cbv zeta.
  assert (Hq : (r1 / n <= r2 / n)%Q).
  { unfold Qdiv. apply Qmult_le_compat_r; [exact Hr|].
    apply Qlt_le_weak, Qinv_lt_0_compat. exact Hn. }
  revert Hq. generalize (r1 / n)%Q (r2 / n)%Q. intros a b Hab.
  surge_cases; try discriminate; exfalso; lra.
Qed.

Lemma surge_bounded_and_monotone_witness :
  (1 <= calculateSurge 40 (-74) 7 0 /\ calculateSurge 40 (-74) 7 0 <= 2)%Q
  /\ (calculateSurge 40 (-74) 3 2 <= calculateSurge 40 (-74) 9 2)%Q.
Proof.
  split.
  - exact (proj1 (surge_bounded_and_monotone 40 (-74) 7 7 0)).
  - apply (proj2 (surge_bounded_and_monotone 40 (-74) 3 9 2)); [reflexivity | discriminate].
Defined.

Lemma duration_by_speed distance (a b : Q) :
  (0 <= distance)%Q -> (0 < a)%Q -> (a <= b)%Q ->
  (Qceiling (distance / b * 60 * (12 # 10)) <= Qceiling (distance / a * 60 * (12 # 10)))%Z.
Proof.
  intros Hd Ha Hab. apply Qceiling_resp_le.
  assert (Hi : (/ b <= / a)%Q).
  { assert (Hb : (0 < b)%Q) by lra.
    apply Qle_shift_inv_l; [exact Ha|].
    assert (E : (/ b * a == a / b)%Q) by (unfold Qdiv; ring). rewrite E.
    apply Qle_shift_div_r; [exact Hb | lra]. }
  unfold Qdiv. nra.
Qed.

(** X10.  For a distance that is not negative, the estimated duration at
    any hour is not negative, is at least the late-night estimate and at
    most the rush-hour estimate; without a time of day it is the midday
    estimate. *)
Theorem duration_between_night_and_rush distance hour :
  (0 <= distance)%Q ->
  (0 <= calculateDuration distance (Some 23)
   /\ calculateDuration distance (Some 23) <= calculateDuration distance (Some hour)
   /\ calculateDuration distance (Some hour) <= calculateDuration distance (Some 8)
   /\ calculateDuration distance None = calculateDuration distance (Some 12))%Z.
Proof.
  intros Hd. unfold calculateDuration. cbn [Z.leb Z.compare Pos.compare Pos.compare_cont
    andb orb]. simpl.
  split.
  - change 0%Z with (Qceiling 0). apply Qceiling_resp_le.
    assert (0 <= distance / 35)%Q by (apply Qle_shift_div_l; [reflexivity | lra]). nra.
  - split; [|split; [|reflexivity]].
    + destruct ((7 <=? hour) && (hour <=? 9) || (16 <=? hour) && (hour <=? 18))%Z;
        [apply duration_by_speed; [exact Hd | reflexivity | discriminate]|].
      destruct ((22 <=? hour) || (hour <=? 5))%Z;
        [apply Z.le_refl | apply duration_by_speed; [exact Hd | reflexivity | discriminate]].
    + destruct ((7 <=? hour) && (hour <=? 9) || (16 <=? hour) && (hour <=? 18))%Z;
        [apply Z.le_refl|].
      destruct ((22 <=? hour) || (hour <=? 5))%Z;
        apply duration_by_speed; try exact Hd; try reflexivity; discriminate.
Qed.

Lemma duration_between_night_and_rush_witness :
  (0 <= calculateDuration 10 (Some 23)
   /\ calculateDuration 10 (Some 23) <= calculateDuration 10 (Some 14)
   /\ calculateDuration 10 (Some 14) <= calculateDuration 10 (Some 8)
   /\ calculateDuration 10 None = calculateDuration 10 (Some 12))%Z.
Proof. apply (duration_between_night_and_rush 10 14). discriminate. Defined.

(** ** Candidates and dispatch *)

Lemma getAvailable_filter nearbyDrivers service w :
  getAvailableDriversForService nearbyDrivers service w =
    (Done (List.filter (available_in w service) nearbyDrivers), w).
Proof.
  unfold getAvailableDriversForService. destruct nearbyDrivers as [|e l]; reflexivity.
Qed.

Lemma available_in_serves w service e :
  available_in w service e = true <->
  exists d, drivers w !! fst e = Some d /\ serves service d.
Proof.
  unfold available_in, serves. destruct (drivers w !! fst e) as [d|].
  - rewrite !andb_true_iff, bool_decide_eq_true, String.eqb_eq, list_elem_of_In. split.
    + intros [[H1 H2] H3]. exists d. auto.
    + intros (d' & [= <-] & H1 & H2 & H3). auto.
  - split; [discriminate | intros (d & H & _); discriminate].
Qed.

Lemma filter_sublist {A} (f : A -> bool) l : sublist (List.filter f l) l.
Proof.
  induction l as [|a l IH]; simpl; [constructor|].
  destruct (f a); [apply sublist_skip | apply sublist_cons]; exact IH.
Qed.

(** X11.  The drivers kept for a service type are the nearby drivers, in the
    order they came (nearest first), whose row is APPROVED, online and lists
    the type: no other is kept and none of these is dropped; the store is
    only read. *)
Theorem available_drivers_are_the_serving_ones nearbyDrivers service w :
  let kept := List.filter (available_in w service) nearbyDrivers in
  getAvailableDriversForService nearbyDrivers service w = (Done kept, w)
  /\ sublist kept nearbyDrivers
  /\ forall e, In e kept <->
       In e nearbyDrivers /\ exists d, drivers w !! fst e = Some d /\ serves service d.
Proof.
  intros kept. split; [apply getAvailable_filter|]. split; [apply filter_sublist|].
  intros e. unfold kept. rewrite filter_In, available_in_serves. reflexivity.
Qed.

Lemma offers_sent rideId fare ds : forall w,
  mapM (fun d => emit (to_driver (fst d)) (ride_request rideId fare (snd d))) ds w =
    (Done (map (fun _ => tt) ds),
     set_outbox (fun o => o ++ map (offer_to rideId fare) ds) w).
Proof.
  induction ds as [|d ds IH]; intros w; simpl.
  - unfold mret, M_ret, ret, set_outbox. rewrite app_nil_r, world_eta. reflexivity.
  - unfold mbind, M_bind, bind. unfold emit at 1, modify.
    rewrite IH. unfold mret, M_ret, ret, set_outbox. simpl.
    rewrite <- app_assoc. reflexivity.
Qed.

(** X12.  Dispatch of a ride none of whose nearby drivers (10 miles, at
    most 20) passes the filter: the ride becomes NO_DRIVERS at once, the
    rider is told, no offer goes out and no timer is set. *)
Theorem dispatch_without_candidates dist rideId now w r :
  rides w !! rideId = Some r ->
  (forall e, In e (nearby dist (pickupLat r) (pickupLng r) 10 20 w) ->
             available_in w (serviceType r) e = false) ->
  startDriverMatching dist rideId now w =
    (Done tt,
     set_outbox (fun o => o ++ [(to_user (userId r), ride_no_drivers rideId)])
       (set_rides (insert rideId (expired r)) w)).
Proof.
  intros Hr Hnone.
  assert (E : List.filter (available_in w (serviceType r))
                (nearby dist (pickupLat r) (pickupLng r) 10 20 w) = []).
  { destruct (List.filter _ _) as [|e l] eqn:Hf; [reflexivity|].
    assert (Hin : In e (e :: l)) by (left; reflexivity).
    rewrite <- Hf in Hin. apply filter_In in Hin. destruct Hin as [Hin Ha].
    rewrite (Hnone e Hin) in Ha. discriminate. }
  unfold startDriverMatching.
  unfold mbind at 1, M_bind at 1, bind at 1, ride_findUnique, gets. rewrite Hr.
  unfold mbind at 1, M_bind at 1, bind at 1. rewrite findNearbyDrivers_nearby.
  unfold mbind at 1, M_bind at 1, bind at 1. rewrite getAvailable_filter, E.
  unfold ride_update. run. rewrite Hr. run. reflexivity.
Qed.

Lemma dispatch_without_candidates_witness :
  startDriverMatching grid_miles "r1" 1000 (sample_world REQUESTED None) =
    (Done tt,
     set_outbox (fun o => o ++ [(to_user "u1", ride_no_drivers "r1")])
       (set_rides (insert "r1" (expired (sample_ride REQUESTED None)))
                  (sample_world REQUESTED None))).
Proof.
  apply (dispatch_without_candidates grid_miles "r1" 1000 (sample_world REQUESTED None)
           (sample_ride REQUESTED None) eq_refl).
  intros e He. destruct He.
Defined.

(** X13.  Dispatch of a ride with candidates: the first five of them, in
    order, are each sent one offer carrying the driver earnings of the ride
    and their own distance; one timer is set 30 seconds ahead; the store
    and the cache are not written. *)
Theorem dispatch_offers_first_five dist rideId now w r c cs :
  rides w !! rideId = Some r ->
  List.filter (available_in w (serviceType r))
    (nearby dist (pickupLat r) (pickupLng r) 10 20 w) = c :: cs ->
  startDriverMatching dist rideId now w =
    (Done tt,
     set_timers (fun ts => ts ++ [mkTimer rideId (userId r) (now + 30000)%Z])
       (set_outbox (fun o => o ++ map (offer_to rideId (driverEarnings r)) (take 5 (c :: cs)))
          w))
  /\ (length (take 5 (c :: cs)) <= 5)%nat.
Proof.
  intros Hr Hf. split; [|rewrite length_take; lia].
  unfold startDriverMatching.
  unfold mbind at 1, M_bind at 1, bind at 1, ride_findUnique, gets. rewrite Hr.
  unfold mbind at 1, M_bind at 1, bind at 1. rewrite findNearbyDrivers_nearby.
  unfold mbind at 1, M_bind at 1, bind at 1. rewrite getAvailable_filter, Hf.
  unfold mbind at 1, M_bind at 1, bind at 1.
  rewrite (offers_sent rideId (driverEarnings r) (take 5 (c :: cs)) w). reflexivity.
Qed.

Lemma dispatch_offers_first_five_witness :
  let w := snd (updateDriverLocation redis_geo_valid "d1" (407128 # 10000) (- (740060 # 10000)) 0
                  (sample_world REQUESTED None)) in
  let r := sample_ride REQUESTED None in
  let c := ("d1", grid_miles (pickupLng r, pickupLat r) (- (740060 # 10000), 407128 # 10000)%Q) in
  startDriverMatching grid_miles "r1" 1000 w =
    (Done tt,
     set_timers (fun ts => ts ++ [mkTimer "r1" "u1" (1000 + 30000)%Z])
       (set_outbox (fun o => o ++ map (offer_to "r1" (driverEarnings r)) (take 5 [c])) w))
  /\ (length (take 5 [c]) <= 5)%nat.
Proof.
  exact (dispatch_offers_first_five grid_miles "r1" 1000
           (snd (updateDriverLocation redis_geo_valid "d1" (407128 # 10000) (- (740060 # 10000)) 0
                   (sample_world REQUESTED None)))
           (sample_ride REQUESTED None)
           ("d1", grid_miles (pickupLng (sample_ride REQUESTED None),
                              pickupLat (sample_ride REQUESTED None)) (- (740060 # 10000), 407128 # 10000)%Q)
           [] eq_refl eq_refl).
Defined.

(** ** Cancelling and tipping *)

(** X14.  The rider or the assigned driver cancels a ride that is neither
    COMPLETED nor CANCELLED: the ride becomes CANCELLED with the instant and
    the party; it takes the reason when one is sent and keeps the reason it
    had when none is; its live state is cleared, the ride's room is told,
    and the answer carries the fee: 5 when the rider cancels a ride that has
    a driver, 0 when the driver cancels or the ride has none. *)
Theorem cancel_charges_rider_of_assigned_ride w id type rideId reason now r :
  rides w !! rideId = Some r ->
  is_rider_of id type r \/ is_driver_of id type r ->
  status r <> COMPLETED -> status r <> CANCELLED ->
  let fee := cancellation_fee type r in
  post_cancel id type rideId reason now w =
    (Done (mkResponse 200 (cancelled_ fee)),
     set_outbox (fun o => o ++ [(to_ride rideId, ride_cancelled rideId type fee)])
       (set_redis (fun c => mkRedis (driver_location c) (drivers_online c)
                                    (delete rideId (ride_state c)))
          (set_rides (insert rideId (cancelled_by type reason now r)) w)))
  /\ status (cancelled_by type reason now r) = CANCELLED
  /\ cancelledAt (cancelled_by type reason now r) = Some now
  /\ cancelledBy (cancelled_by type reason now r)
     = Some (if is_user type then "RIDER" else "DRIVER")
  /\ (forall s, reason = Some s -> cancelReason (cancelled_by type reason now r) = Some s)
  /\ (reason = None -> cancelReason (cancelled_by type reason now r) = cancelReason r)
  /\ (is_rider_of id type r -> is_Some (driverId r) -> fee = 5%Q)
  /\ (is_driver_of id type r -> fee = 0%Q)
  /\ (driverId r = None -> fee = 0%Q).
Proof.
  intros Hr Ho Hc Hx fee.
  destruct (cancelled_by_fields type reason now r) as (Hs & Ha & Hb & Hreason).
  split; [|split; [exact Hs|split; [exact Ha|split; [exact Hb|split; [|split]]]]].
  - unfold post_cancel, asyncHandler, ride_update, clearRideState. run. rewrite Hr. run.
    assert (Hpass : is_user type && negb (bool_decide (userId r = id)) = false
                    /\ is_driver type && negb (bool_decide (driverId r = Some id)) = false).
    { destruct Ho as [[-> Hu] | [-> Hd]]; simpl.
      - rewrite bool_decide_eq_true_2 by exact Hu. split; reflexivity.
      - rewrite bool_decide_eq_true_2 by exact Hd. split; reflexivity. }
    destruct Hpass as [-> ->].
    rewrite bool_decide_eq_false_2.
    2:{ intros Hin. apply elem_of_cons in Hin. destruct Hin as [E|Hin]; [contradiction|].
        apply elem_of_cons in Hin. destruct Hin as [E|Hin]; [contradiction|].
        apply elem_of_nil in Hin. exact Hin. }
    rewrite Hr. run. reflexivity.
  - intros s ->. exact Hreason.
  - intros ->. exact Hreason.
  - unfold fee, cancellation_fee. split; [|split].
    + intros [-> _] Hsome. rewrite bool_decide_eq_true_2 by exact Hsome. reflexivity.
    + intros [-> _]. rewrite andb_false_r. reflexivity.
    + intros ->. rewrite bool_decide_eq_false_2; [reflexivity|].
      intros [x Hx']. discriminate.
Qed.

(** The rider cancels the accepted ride with a reason and is charged 5; the
    assigned driver cancels it without one, the ride keeps the reason it
    had (none), and nothing is charged. *)
Lemma cancel_charges_rider_of_assigned_ride_witness :
  (post_cancel "u1" "user" "r1" (Some "changed plans") 9000
               (sample_world ACCEPTED (Some "d1")) =
     (Done (mkResponse 200 (cancelled_ 5)),
      set_outbox (fun o => o ++ [(to_ride "r1", ride_cancelled "r1" "user" 5)])
        (set_redis (fun c => mkRedis (driver_location c) (drivers_online c)
                                     (delete "r1" (ride_state c)))
           (set_rides (insert "r1" (cancelled_by "user" (Some "changed plans") 9000
                                      (sample_ride ACCEPTED (Some "d1"))))
                      (sample_world ACCEPTED (Some "d1")))))
   /\ cancelReason (cancelled_by "user" (Some "changed plans") 9000
                      (sample_ride ACCEPTED (Some "d1"))) = Some "changed plans")
  /\ (fst (post_cancel "d1" "driver" "r1" None 9000 (sample_world ACCEPTED (Some "d1")))
      = Done (mkResponse 200 (cancelled_ 0))
      /\ cancelReason (cancelled_by "driver" None 9000 (sample_ride ACCEPTED (Some "d1")))
         = None).
Proof.
  assert (Hc : ACCEPTED <> COMPLETED) by discriminate.
  assert (Hx : ACCEPTED <> CANCELLED) by discriminate.
  destruct (cancel_charges_rider_of_assigned_ride (sample_world ACCEPTED (Some "d1"))
              "u1" "user" "r1" (Some "changed plans") 9000
              (sample_ride ACCEPTED (Some "d1")) eq_refl
              (or_introl (conj eq_refl eq_refl)) Hc Hx) as (H1 & _ & _ & _ & H2 & _).
  destruct (cancel_charges_rider_of_assigned_ride (sample_world ACCEPTED (Some "d1"))
              "d1" "driver" "r1" None 9000
              (sample_ride ACCEPTED (Some "d1")) eq_refl
              (or_intror (conj eq_refl eq_refl)) Hc Hx) as (H3 & _ & _ & _ & _ & H4 & _).
  split; [split; [exact H1 | exact (H2 _ eq_refl)]|].
  split; [rewrite H3; reflexivity | exact (H4 eq_refl)].
Defined.

Lemma tip_earning_twice rideId a b es :
  map (tip_earning rideId b) (map (tip_earning rideId a) es) = map (tip_earning rideId b) es.
Proof.
  rewrite map_map. apply map_ext. intros e. unfold tip_earning.
  destruct (has_ride rideId e) eqn:H; [|rewrite H; reflexivity].
  unfold has_ride in *. simpl. rewrite H. reflexivity.
Qed.

Lemma tip_accepted w id rideId amount r :
  rides w !! rideId = Some r -> userId r = id -> status r = COMPLETED ->
  post_tip id "user" rideId amount w =
    (Done (mkResponse 200 success_),
     set_earnings (fun es => match driverId r with
                             | Some _ => map (tip_earning rideId amount) es
                             | None => es
                             end)
       (set_rides (insert rideId (tipped amount r)) w)).
Proof.
  intros Hr Hu Hs. unfold post_tip, requireUserType, asyncHandler, ride_update. run.
  rewrite Hr. run. rewrite bool_decide_eq_true_2 by exact Hu.
  rewrite bool_decide_eq_true_2 by exact Hs. run. rewrite Hr. run.
  destruct (driverId r); run; [reflexivity|].
  unfold set_earnings, set_rides. simpl. reflexivity.
Qed.

(** X15.  The rider tips a COMPLETED ride of theirs, by any amount (the
    declared bounds are never enforced): the ride's tip and the tip of every
    earning of the ride become that amount, the driver rows (their total
    earnings included) stay as they were, and a second tip replaces the
    first rather than adding to it. *)
Theorem tip_replaces_earlier_tip w id rideId a b r :
  rides w !! rideId = Some r -> userId r = id -> status r = COMPLETED ->
  let w1 := snd (post_tip id "user" rideId a w) in
  fst (post_tip id "user" rideId a w) = Done (mkResponse 200 success_)
  /\ tip <$> rides w1 !! rideId = Some a
  /\ (is_Some (driverId r) ->
      Forall (fun e => e_rideId e = rideId -> e_tip e = a) (earnings w1))
  /\ drivers w1 = drivers w
  /\ snd (post_tip id "user" rideId b w1) = snd (post_tip id "user" rideId b w).
Proof.
  intros Hr Hu Hs w1. subst w1. rewrite (tip_accepted w id rideId a r Hr Hu Hs).
  cbn [fst snd]. split; [reflexivity|]. split.
  { simpl. rewrite lookup_insert_eq. reflexivity. }
  split.
  { intros [x Hx]. simpl. rewrite Hx. apply Forall_forall. intros e He Hid.
    apply list_elem_of_In, in_map_iff in He. destruct He as (e0 & <- & _).
    unfold tip_earning in *. destruct (has_ride rideId e0) eqn:H; [reflexivity|].
    unfold has_ride in H. rewrite Hid, String.eqb_refl in H. discriminate. }
  split; [reflexivity|].
  rewrite (tip_accepted w id rideId b r Hr Hu Hs).
  rewrite (tip_accepted _ id rideId b (tipped a r)); simpl;
    [| apply lookup_insert_eq | exact Hu | exact Hs].
  unfold set_earnings, set_rides. simpl. rewrite insert_insert_eq.
  destruct (driverId r); [rewrite tip_earning_twice|]; reflexivity.
Qed.

Lemma tip_replaces_earlier_tip_witness :
  let w := sample_world COMPLETED (Some "d1") in
  let w1 := snd (post_tip "u1" "user" "r1" 3 w) in
  tip <$> rides w1 !! "r1" = Some 3%Q
  /\ drivers w1 = drivers w
  /\ snd (post_tip "u1" "user" "r1" (- (2)) w1) = snd (post_tip "u1" "user" "r1" (- (2)) w).
Proof.
  destruct (tip_replaces_earlier_tip (sample_world COMPLETED (Some "d1")) "u1" "r1" 3
              (- (2)) (sample_ride COMPLETED (Some "d1")) eq_refl eq_refl eq_refl)
    as (_ & H1 & _ & H2 & H3).
  split; [exact H1|]. split; [exact H2 | exact H3].
Defined.

(** X16.  A tip for a ride that does not exist, is not the requester's, or
    is not COMPLETED is refused (404, 404, 400) and nothing is written. *)
Theorem tip_refused_leaves_world w id rideId amount :
  (forall r, rides w !! rideId = Some r -> userId r <> id \/ status r <> COMPLETED) ->
  post_tip id "user" rideId amount w = (Done (mkResponse 404 (error_ "Ride not found")), w)
  \/ post_tip id "user" rideId amount w =
       (Done (mkResponse 400 (error_ "Can only tip completed rides")), w).
Proof.
  intros H. unfold post_tip, requireUserType, asyncHandler. run.
  destruct (rides w !! rideId) as [r|] eqn:Hr; run; [|left; reflexivity].
  destruct (bool_decide (userId r = id)) eqn:Hu; simpl; [|left; reflexivity].
  apply bool_decide_eq_true in Hu.
  destruct (H r eq_refl) as [Hn|Hn]; [contradiction|].
  rewrite bool_decide_eq_false_2 by exact Hn. right. reflexivity.
Qed.

Lemma tip_refused_leaves_world_witness :
  post_tip "u1" "user" "r1" 3 (sample_world IN_PROGRESS (Some "d1")) =
    (Done (mkResponse 404 (error_ "Ride not found")), sample_world IN_PROGRESS (Some "d1"))
  \/ post_tip "u1" "user" "r1" 3 (sample_world IN_PROGRESS (Some "d1")) =
       (Done (mkResponse 400 (error_ "Can only tip completed rides")),
        sample_world IN_PROGRESS (Some "d1")).
Proof.
  apply (tip_refused_leaves_world (sample_world IN_PROGRESS (Some "d1")) "u1" "r1" 3).
  intros r Hr. simpl in Hr. apply lookup_singleton_Some in Hr. destruct Hr as [_ <-].
  right. discriminate.
Defined.

(** ** Requests, promos and the cache *)

(** Splits a handler into its primitive steps; [leaf] closes a write. *)
Ltac respects_by Rrefl Rtrans leaf :=
  repeat first
    [ apply (respects_bind _ Rtrans); [| intros ?]
    | apply (respects_try_catch _ Rtrans); [| intros ?]
    | apply (respects_mapM _ Rrefl Rtrans); intros ?
    | apply (respects_ret _ Rrefl)
    | apply (respects_mret _ Rrefl)
    | apply (respects_throw _ Rrefl)
    | apply (respects_gets _ Rrefl)
    | match goal with
      | |- respects _ (match ?x with _ => _ end) => destruct x
      | |- respects _ (if ?b then _ else _) => destruct b
      | |- respects _ (modify _) => apply respects_modify; intros ?; leaf
      end ].

Ltac unfold_handlers :=
  unfold post_request, get_ride, post_cancel, post_tip, post_location,
    driver_accept_ride, accept_read, accept_write, accept_catch, driver_arrived,
    driver_start_trip, driver_complete_trip, expiry_callback,
    handlePaymentSuccess, handlePaymentFailed, requireUserType, asyncHandler,
    startDriverMatching, findNearbyDrivers, georadius, getAvailableDriversForService,
    validatePromoCode, earning_create, driver_update, driver_findUnique,
    ride_update, ride_create,
    ride_findFirst_active, ride_findUnique, setRideState, clearRideState,
    updateDriverLocation, setex_location, geoadd, getDriverLocation, emit;
  cbv zeta.

Lemma promos_kept_refl w : promos_kept w w.
Proof. split; reflexivity. Qed.

Lemma promos_kept_trans a b c : promos_kept a b -> promos_kept b c -> promos_kept a c.
Proof. unfold promos_kept. intros [-> ->] [-> ->]. split; reflexivity. Qed.

Lemma run_op_promos uniq valid dist op : respects promos_kept (run_op uniq valid dist op).
Proof.
  destruct op; unfold run_op; unfold_handlers;
    respects_by promos_kept_refl promos_kept_trans ltac:(split; reflexivity).
Qed.

(** X17.  No entry point writes the promo tables: after any sequence of
    requests, reads, cancellations, tips, driver events, timer firings,
    webhooks and position updates, the promo codes (their usage counts
    included) and the recorded usages are what they were.  A ride created
    with a promo code records no usage of it. *)
Theorem promo_usage_never_recorded uniq valid dist ops w :
  promos_kept w (run_ops uniq valid dist ops w).
Proof.
  revert w. induction ops as [|op ops IH]; intros w; simpl; [apply promos_kept_refl|].
  eapply promos_kept_trans; [apply run_op_promos | apply IH].
Qed.

Lemma channel_kept_refl w : channel_kept w w.
Proof. split; reflexivity. Qed.

Lemma channel_kept_trans a b c : channel_kept a b -> channel_kept b c -> channel_kept a c.
Proof. unfold channel_kept. intros [-> ->] [-> ->]. split; reflexivity. Qed.

(** X19.  A request whose [scheduledFor] is given and is not 0 starts no
    matching: whatever else it does, it sends nothing on the channel and
    sets no timer. *)
Theorem scheduled_request_is_not_dispatched dist id type q distance newId now w :
  scheduled q = true ->
  channel_kept w (snd (post_request dist id type q distance newId now w)).
Proof.
  intros Hs. revert w. change (respects channel_kept
    (post_request dist id type q distance newId now)).
  unfold post_request. rewrite Hs. unfold_handlers.
  respects_by channel_kept_refl channel_kept_trans ltac:(split; reflexivity).
Qed.

Lemma scheduled_request_is_not_dispatched_witness :
  channel_kept (sample_world COMPLETED (Some "d1"))
    (snd (post_request grid_miles "u1" "user"
            (mkRideRequest "1 Main St" 40 (-74) "9 Elm St" 41 (-74) "VELOX"
                           (Some 86400000%Z) None)
            0 "r2" 5000 (sample_world COMPLETED (Some "d1")))).
Proof.
  exact (scheduled_request_is_not_dispatched grid_miles "u1" "user"
           (mkRideRequest "1 Main St" 40 (-74) "9 Elm St" 41 (-74) "VELOX"
                          (Some 86400000%Z) None)
           0 "r2" 5000 (sample_world COMPLETED (Some "d1")) eq_refl).
Defined.

(** X20.  A ride request from an identity that is not of type user, or
    with an empty address or an unknown service type, is refused (403, 400)
    before the store is read: nothing is written, sent or scheduled. *)
Theorem bad_request_leaves_world dist id type q distance newId now w :
  type <> "user" \/ request_valid q = false ->
  post_request dist id type q distance newId now w =
    (Done (mkResponse 403 (error_ "Access denied. user account required.")), w)
  \/ post_request dist id type q distance newId now w = (Done (mkResponse 400 errors_), w).
Proof.
  intros H. unfold post_request, requireUserType.
  destruct (String.eqb type "user") eqn:Ht.
  - right. destruct H as [H|H]; [apply String.eqb_eq in Ht; contradiction|].
    unfold asyncHandler, try_catch. rewrite H. reflexivity.
  - left. reflexivity.
Qed.

Lemma bad_request_leaves_world_witness :
  post_request grid_miles "u1" "user"
    (mkRideRequest "" 40 (-74) "9 Elm St" 41 (-74) "VELOX_GOLD" None None)
    0 "r2" 5000 (sample_world COMPLETED None) =
    (Done (mkResponse 403 (error_ "Access denied. user account required.")),
     sample_world COMPLETED None)
  \/ post_request grid_miles "u1" "user"
       (mkRideRequest "" 40 (-74) "9 Elm St" 41 (-74) "VELOX_GOLD" None None)
       0 "r2" 5000 (sample_world COMPLETED None) =
       (Done (mkResponse 400 errors_), sample_world COMPLETED None).
Proof.
  apply bad_request_leaves_world. right. reflexivity.
Defined.

Lemma world_kept_refl w : world_kept w w.
Proof. reflexivity. Qed.

Lemma world_kept_trans a b c : world_kept a b -> world_kept b c -> world_kept a c.
Proof. unfold world_kept. congruence. Qed.

(** X21.  Reading a ride changes nothing, whoever asks and whatever the
    answer; for an id no ride has, the answer is 404 'Ride not found'. *)
Theorem get_ride_only_reads id type rideId now w :
  snd (get_ride id type rideId now w) = w
  /\ (rides w !! rideId = None ->
      fst (get_ride id type rideId now w) = Done (mkResponse 404 (error_ "Ride not found"))).
Proof.
  split.
  - revert w. change (respects world_kept (get_ride id type rideId now)).
    unfold_handlers. respects_by world_kept_refl world_kept_trans idtac.
  - intros Hr. unfold get_ride, asyncHandler. run. rewrite Hr. reflexivity.
Qed.

(** X22.  A promo code that is unknown, inactive, past its [validUntil],
    at its (non-zero) usage limit, used by this rider as often as
    [perUserLimit] allows, or under a fare below its minimum gives no
    discount; the tables are only read. *)
Theorem unusable_promo_gives_no_discount code user fare now w :
  (forall p, promoCodes w !! toUpperCase code = Some p ->
     isActive p = false
     \/ (exists t, validUntil p = Some t /\ (t < now)%Z)
     \/ (exists l, usageLimit p = Some l /\ l <> 0%Z /\ (l <= usageCount p)%Z)
     \/ (perUserLimit p <= count_usages (promoId p) user (promoUsages w))%Z
     \/ (exists m, minRideFare p = Some m /\ (fare < m)%Q)) ->
  validatePromoCode code user fare now w = (Done None, w).
Proof.
  intros H. unfold validatePromoCode. run.
  destruct (promoCodes w !! toUpperCase code) as [p|] eqn:Hp; run; [|reflexivity].
  destruct (isActive p) eqn:Ha; run; [|reflexivity].
  destruct (match validUntil p with Some t => (t <? now)%Z | None => false end) eqn:Hv;
    run; [reflexivity|].
  destruct (match usageLimit p with
            | Some l => negb (l =? 0)%Z && (l <=? usageCount p)%Z
            | None => false end) eqn:Hl; run; [reflexivity|].
  destruct (perUserLimit p <=? count_usages (promoId p) user (promoUsages w))%Z eqn:Hu;
    run; [reflexivity|].
  destruct (match minRideFare p with Some m => negb (Qle_bool m fare) | None => false end)
    eqn:Hm; run; [reflexivity|].
  exfalso. destruct (H p eq_refl) as [E | [(t & E & Ht) | [(l & E & Hl0 & Hl1) | [E | (m & E & Hlt)]]]].
  - congruence.
  - rewrite E in Hv. apply Z.ltb_ge in Hv. lia.
  - rewrite E in Hl. apply andb_false_iff in Hl. destruct Hl as [Hl | Hl].
    + apply negb_false_iff, Z.eqb_eq in Hl. contradiction.
    + apply Z.leb_gt in Hl. lia.
  - apply Z.leb_gt in Hu. lia.
  - rewrite E in Hm. apply negb_false_iff, Qle_bool_iff in Hm. lra.
Qed.

Lemma unusable_promo_gives_no_discount_witness :
  validatePromoCode "velox25" "u1" 20 5000
    (with_promos {[ "VELOX25" :=
                    mkPromoCode "p25" "PERCENTAGE" 25 (Some 15%Q) true (Some 4000%Z)
                                None 0 1 None ]}
                 (sample_world REQUESTED None)) =
  (Done None,
   with_promos {[ "VELOX25" :=
                  mkPromoCode "p25" "PERCENTAGE" 25 (Some 15%Q) true (Some 4000%Z)
                              None 0 1 None ]}
               (sample_world REQUESTED None)).
Proof.
  apply unusable_promo_gives_no_discount.
  intros p Hp. simpl in Hp. apply lookup_singleton_Some in Hp. destruct Hp as [_ <-].
  right. left. exists 4000%Z. split; [reflexivity | reflexivity].
Defined.

(** X23.  A discount that is granted never exceeds the fare nor the value
    for a FIXED promo, and never exceeds the cap for a percentage promo
    that has one. *)
Theorem granted_discount_is_capped code user fare now w d :
  fst (validatePromoCode code user fare now w) = Done (Some d) ->
  exists p, promoCodes w !! toUpperCase code = Some p
    /\ (promoType p = "FIXED" -> (d <= fare /\ d <= value p)%Q)
    /\ (promoType p <> "FIXED" -> forall m, maxDiscount p = Some m -> (d <= m)%Q).
Proof.
  unfold validatePromoCode. run.
  destruct (promoCodes w !! toUpperCase code) as [p|] eqn:Hp; run; [|discriminate].
  repeat (match goal with
          | |- context [if ?b then (fun w0 => (Done None, w0)) else _] =>
              destruct b; run; [discriminate|]
          end).
  intros [= <-]. exists p. split; [reflexivity|]. split.
  - intros ->. simpl. split; [apply Q.le_min_r | apply Q.le_min_l].
  - intros Hn m Hm. destruct (String.eqb (promoType p) "FIXED") eqn:E.
    + apply String.eqb_eq in E. contradiction.
    + rewrite Hm. apply Q.le_min_r.
Qed.

Lemma granted_discount_is_capped_witness :
  exists p,
    promoCodes (with_promos {[ "VELOX25" := promo_25 ]} (sample_world REQUESTED None))
      !! toUpperCase "Velox25" = Some p
    /\ (promoType p = "FIXED" -> (Qmin (100 * (25 / 100)) 15 <= 100
                                  /\ Qmin (100 * (25 / 100)) 15 <= value p)%Q)
    /\ (promoType p <> "FIXED" ->
        forall m, maxDiscount p = Some m -> (Qmin (100 * (25 / 100)) 15 <= m)%Q).
Proof.
  exact (granted_discount_is_capped "Velox25" "u1" 100 5000
           (with_promos {[ "VELOX25" := promo_25 ]} (sample_world REQUESTED None))
           (Qmin (100 * (25 / 100)) 15) eq_refl).
Defined.

Lemma redis_kept_refl w : redis_kept w w.
Proof. reflexivity. Qed.

Lemma redis_kept_trans a b c : redis_kept a b -> redis_kept b c -> redis_kept a c.
Proof. unfold redis_kept. congruence. Qed.

(** X24.  Neither the dispatch nor the expiry callback writes to Redis: when
    either turns a ride NO_DRIVERS, the live state written at creation stays
    and reads back as before. *)
Theorem no_drivers_keeps_live_state dist rideId t now w :
  redis (snd (startDriverMatching dist rideId now w)) = redis w
  /\ redis (snd (expiry_callback t w)) = redis w
  /\ fst (getRideState rideId now (snd (expiry_callback t w)))
     = fst (getRideState rideId now w).
Proof.
  assert (H1 : respects redis_kept (startDriverMatching dist rideId now)).
  { unfold_handlers. respects_by redis_kept_refl redis_kept_trans ltac:(exact eq_refl). }
  assert (H2 : respects redis_kept (expiry_callback t)).
  { unfold_handlers. respects_by redis_kept_refl redis_kept_trans ltac:(exact eq_refl). }
  split; [apply H1|]. split; [apply H2|].
  unfold getRideState, gets. cbn [fst]. rewrite (H2 w). reflexivity.
Qed.

(** ** Driver events *)

(** X25.  The four driver events do nothing at all for a connection whose
    identity is not of type driver: no write, no answer, no error. *)
Theorem driver_events_ignore_other_identities uniq id type rideId now w :
  type <> "driver" ->
  driver_accept_ride id type rideId now w = (Done tt, w)
  /\ driver_arrived id type rideId now w = (Done tt, w)
  /\ driver_start_trip id type rideId now w = (Done tt, w)
  /\ driver_complete_trip uniq id type rideId now w = (Done tt, w).
Proof.
  intros Ht.
  assert (E : is_driver type = false).
  { unfold is_driver. destruct (String.eqb type "driver") eqn:E; [|reflexivity].
    apply String.eqb_eq in E. contradiction. }
  unfold driver_accept_ride, driver_arrived, driver_start_trip, driver_complete_trip.
  rewrite E. repeat split.
Qed.

Lemma driver_events_ignore_other_identities_witness :
  driver_accept_ride "u1" "user" "r1" 1000 (sample_world REQUESTED None)
    = (Done tt, sample_world REQUESTED None)
  /\ driver_arrived "u1" "user" "r1" 1000 (sample_world REQUESTED None)
    = (Done tt, sample_world REQUESTED None)
  /\ driver_start_trip "u1" "user" "r1" 1000 (sample_world REQUESTED None)
    = (Done tt, sample_world REQUESTED None)
  /\ driver_complete_trip false "u1" "user" "r1" 1000 (sample_world REQUESTED None)
    = (Done tt, sample_world REQUESTED None).
Proof.
  apply (driver_events_ignore_other_identities false "u1" "user" "r1" 1000
           (sample_world REQUESTED None)).
  discriminate.
Defined.

(** X26.  For an id that no ride has: the arrived, start and complete events
    and the two payment webhooks throw 'record not found' having written
    nothing; the accept is answered 'Ride no longer available'; reading,
    cancelling and tipping answer 404; the expiry callback and the dispatch
    do nothing.  None of them creates the ride. *)
Theorem unknown_ride_is_never_written uniq dist id rideId reason amount pi t now w :
  rides w !! rideId = None ->
  driver_arrived id "driver" rideId now w = (Threw P2025, w)
  /\ driver_start_trip id "driver" rideId now w = (Threw P2025, w)
  /\ driver_complete_trip uniq id "driver" rideId now w = (Threw P2025, w)
  /\ handlePaymentSuccess rideId pi w = (Threw P2025, w)
  /\ handlePaymentFailed rideId w = (Threw P2025, w)
  /\ driver_accept_ride id "driver" rideId now w =
       (Done tt, set_outbox (fun o => o ++ [no_longer_available (id, now)]) w)
  /\ get_ride id "user" rideId now w = (Done (mkResponse 404 (error_ "Ride not found")), w)
  /\ post_cancel id "user" rideId reason now w =
       (Done (mkResponse 404 (error_ "Ride not found")), w)
  /\ post_tip id "user" rideId amount w =
       (Done (mkResponse 404 (error_ "Ride not found")), w)
  /\ expiry_callback (mkTimer rideId id t) w = (Done tt, w)
  /\ startDriverMatching dist rideId now w = (Done tt, w).
Proof.
  intros Hr.
  unfold driver_arrived, driver_start_trip, driver_complete_trip, handlePaymentSuccess,
    handlePaymentFailed, get_ride, post_cancel, post_tip, expiry_callback,
    startDriverMatching, requireUserType, asyncHandler, ride_update.
  run. rewrite Hr. run. repeat split.
  apply accept_not_requested. intros r. rewrite Hr. discriminate.
Qed.

Lemma unknown_ride_is_never_written_witness :
  driver_arrived "d1" "driver" "r9" 1000 (sample_world REQUESTED None)
    = (Threw P2025, sample_world REQUESTED None)
  /\ driver_complete_trip false "d1" "driver" "r9" 1000 (sample_world REQUESTED None)
    = (Threw P2025, sample_world REQUESTED None).
Proof.
  destruct (unknown_ride_is_never_written false grid_miles "d1" "r9" None 0 "pi_1" 0 1000
              (sample_world REQUESTED None) eq_refl) as (H1 & _ & H3 & _).
  split; [exact H1 | exact H3].
Defined.

(** X27.  The completion handler does not ask whose ride it is.  A driver
    with a record who completes a ride assigned to another driver is
    confirmed: the earning is written in the sender's name, the sender's
    ride count and total earnings grow, and the assigned driver's row is
    untouched. *)
Theorem completion_credits_the_sender uniq w rideId r id d x dx t :
  rides w !! rideId = Some r -> drivers w !! id = Some d ->
  driverId r = Some x -> drivers w !! x = Some dx -> x <> id ->
  uniq && existsb (has_ride rideId) (earnings w) = false ->
  let w1 := snd (driver_complete_trip uniq id "driver" rideId t w) in
  fst (driver_complete_trip uniq id "driver" rideId t w) = Done tt
  /\ earnings w1 = earnings w ++ [earning_of id rideId r]
  /\ e_driverId (earning_of id rideId r) = id
  /\ drivers w1 !! id = Some (count_ride d (driverEarnings r))
  /\ drivers w1 !! x = Some dx
  /\ driverId <$> rides w1 !! rideId = Some (Some x).
Proof.
  intros Hr Hd Hx Hdx Hne Hu w1. subst w1.
  rewrite (complete_step uniq w rideId r id d x dx t Hr Hd Hx Hdx Hu). simpl.
  split; [reflexivity|]. split; [reflexivity|]. split; [reflexivity|].
  split; [apply lookup_insert_eq|].
  split; [rewrite lookup_insert_ne by congruence; exact Hdx|].
  rewrite lookup_insert_eq. simpl. rewrite Hx. reflexivity.
Qed.

Lemma completion_credits_the_sender_witness :
  let w1 := snd (driver_complete_trip false "d2" "driver" "r1" 9000
                   (sample_world IN_PROGRESS (Some "d1"))) in
  fst (driver_complete_trip false "d2" "driver" "r1" 9000
         (sample_world IN_PROGRESS (Some "d1"))) = Done tt
  /\ map e_driverId (earnings w1) = ["d2"]
  /\ totalRides <$> drivers w1 !! "d2" = Some 1%Z
  /\ totalRides <$> drivers w1 !! "d1" = Some 0%Z.
Proof.
  destruct (completion_credits_the_sender false (sample_world IN_PROGRESS (Some "d1")) "r1"
              (sample_ride IN_PROGRESS (Some "d1")) "d2"
              (sample_driver true ["VELOX"; "VELOX_XL"]) "d1" (sample_driver true ["VELOX"])
              9000 eq_refl eq_refl eq_refl eq_refl ltac:(discriminate) eq_refl)
    as (H1 & H2 & _ & H4 & H5 & _).
  split; [exact H1|]. split; [rewrite H2; reflexivity|].
  split; [rewrite H4; reflexivity | rewrite H5; reflexivity].
Defined.

Lemma arrived_step w rideId r id t :
  rides w !! rideId = Some r ->
  driver_arrived id "driver" rideId t w =
    (Done tt,
     set_outbox (fun o => o ++ [(to_user (userId r), ride_driver_arrived rideId)])
       (set_rides (insert rideId (arrived_at t r)) w)).
Proof.
  intros Hr. unfold driver_arrived, ride_update. run. rewrite Hr. run. reflexivity.
Qed.

Lemma start_step w rideId r id t :
  rides w !! rideId = Some r ->
  driver_start_trip id "driver" rideId t w =
    (Done tt,
     set_outbox (fun o => o ++ [(to_user (userId r), ride_trip_started rideId)])
       (set_rides (insert rideId (started_at t r)) w)).
Proof.
  intros Hr. unfold driver_start_trip, ride_update. run. rewrite Hr. run. reflexivity.
Qed.

(** X28.  A whole trip.  From a REQUESTED ride, the accept, arrived, start
    and complete events of one driver (with a record), one after the
    other: the ride ends COMPLETED under that driver with the four instants
    recorded and its fares untouched; one earning is written, its gross,
    fee and net being the ride's total, platform fee and driver earnings;
    the driver's ride count grows by one; rider and driver receive the six
    notifications in order. *)
Theorem trip_from_accept_to_completion uniq w rideId r d rec t1 t2 t3 t4 :
  rides w !! rideId = Some r -> status r = REQUESTED -> drivers w !! d = Some rec ->
  uniq && existsb (has_ride rideId) (earnings w) = false ->
  let w1 := snd (driver_accept_ride d "driver" rideId t1 w) in
  let w2 := snd (driver_arrived d "driver" rideId t2 w1) in
  let w3 := snd (driver_start_trip d "driver" rideId t3 w2) in
  let w4 := snd (driver_complete_trip uniq d "driver" rideId t4 w3) in
  let r4 := completed_at t4 (started_at t3 (arrived_at t2 (accepted_by d t1 r))) in
  fst (driver_complete_trip uniq d "driver" rideId t4 w3) = Done tt
  /\ rides w4 !! rideId = Some r4
  /\ status r4 = COMPLETED /\ driverId r4 = Some d
  /\ (acceptedAt r4, arrivedAt r4, startedAt r4, completedAt r4)
     = (Some t1, Some t2, Some t3, Some t4)
  /\ fare_fields r4 = fare_fields r
  /\ earnings w4 = earnings w ++ [earning_of d rideId r]
  /\ drivers w4 !! d = Some (count_ride rec (driverEarnings r))
  /\ outbox w4 = outbox w ++ [(to_user (userId r), ride_accepted rideId d);
                              (to_socket d, ride_accept_confirmed rideId (driverEarnings r));
                              (to_user (userId r), ride_driver_arrived rideId);
                              (to_user (userId r), ride_trip_started rideId);
                              (to_user (userId r), ride_completed rideId (totalFare r));
                              (to_socket d, ride_complete_confirmed rideId (driverEarnings r))].
Proof.
  intros Hr Hs Hd Hu w1 w2 w3 w4 r4. subst w1 w2 w3 w4 r4.
  rewrite (accept_requested w rideId r d rec t1 Hr Hs Hd). cbn [snd].
  rewrite (arrived_step _ rideId (accepted_by d t1 r) d t2) by apply lookup_insert_eq.
  cbn [snd].
  rewrite (start_step _ rideId (arrived_at t2 (accepted_by d t1 r)) d t3)
    by apply lookup_insert_eq.
  cbn [snd].
  rewrite (complete_step uniq _ rideId (started_at t3 (arrived_at t2 (accepted_by d t1 r)))
             d rec d rec t4);
    [| apply lookup_insert_eq | exact Hd | reflexivity | exact Hd | exact Hu].
  simpl. split; [reflexivity|]. split; [apply lookup_insert_eq|].
  do 4 (split; [reflexivity|]). split; [reflexivity|].
  split; [apply lookup_insert_eq|].
  rewrite <- !app_assoc. reflexivity.
Qed.

Lemma trip_from_accept_to_completion_witness :
  let w := sample_world REQUESTED None in
  let w1 := snd (driver_accept_ride "d1" "driver" "r1" 1000 w) in
  let w2 := snd (driver_arrived "d1" "driver" "r1" 2000 w1) in
  let w3 := snd (driver_start_trip "d1" "driver" "r1" 3000 w2) in
  let w4 := snd (driver_complete_trip true "d1" "driver" "r1" 4000 w3) in
  fst (driver_complete_trip true "d1" "driver" "r1" 4000 w3) = Done tt
  /\ status <$> rides w4 !! "r1" = Some COMPLETED
  /\ earnings w4 = [earning_of "d1" "r1" (sample_ride REQUESTED None)].
Proof.
  destruct (trip_from_accept_to_completion true (sample_world REQUESTED None) "r1"
              (sample_ride REQUESTED None) "d1" (sample_driver true ["VELOX"])
              1000 2000 3000 4000 eq_refl eq_refl eq_refl eq_refl)
    as (H1 & H2 & _ & _ & _ & _ & H3 & _).
  split; [exact H1|]. split; [rewrite H2; reflexivity | exact H3].
Defined.

(** ** Going online and offline *)



